(** * Product-URL crawler: a shallow embedding of [advance.py] and
    [version2.py] and the properties of their frontier, classifier,
    scroll controller and access gate.

    Layout:
    - [Py]: the fragment of the Python runtime the crawlers rely on
      (exceptions, coroutine outcomes, string built-ins);
    - [Advance]: [EcommerceCrawler] of advance.py (Playwright based);
    - [Version2]: [DomainCrawler] and [ParallelCrawler] of version2.py
      (aiohttp/Selenium based);
    - [PyModel]: an executable instance of the external libraries, used to
      run the crawlers on concrete sites. *)

From Stdlib Require Import ZArith QArith Lia Ascii String.
From stdpp Require Import gmap strings list.
From Equations Require Import Equations.

Local Open Scope Z_scope.

(* ===================================================================== *)
(** * The Python runtime *)
(* ===================================================================== *)

Module Py.

(** Exceptions that the crawlers distinguish.  All of them derive from
    [Exception]; [TimeoutError] is Playwright's and [AsyncioTimeoutError]
    is [asyncio.TimeoutError], the two classes that are caught
    selectively. *)
Inductive exn :=
| TimeoutError
| AsyncioTimeoutError
| KeyError
| ValueError
| RuntimeError.

(** Outcome of running a coroutine: it returns, it raises, or it never
    resumes ([Abort]: cancelled at an [await], or a loop bound of the model
    was reached).  [Abort] is not an [Exception]: no handler catches it. *)
Inductive res (A : Type) :=
| Ok (a : A)
| Raise (e : exn)
| Abort.
Arguments Ok {A} a.
Arguments Raise {A} e.
Arguments Abort {A}.

(** Computations over a mutable state [S]. *)
Definition M (S A : Type) : Type := S -> res A * S.

Definition ret {S A} (a : A) : M S A := fun s => (Ok a, s).

Definition bind {S A B} (m : M S A) (k : A -> M S B) : M S B :=
  fun s =>
    match m s with
    | (Ok a, s') => k a s'
    | (Raise e, s') => (Raise e, s')
    | (Abort, s') => (Abort, s')
    end.

Definition raise {S A} (e : exn) : M S A := fun s => (Raise e, s).
Definition abort {S A} : M S A := fun s => (Abort, s).
Definition get {S} : M S S := fun s => (Ok s, s).
Definition modify {S} (f : S -> S) : M S unit := fun s => (Ok tt, f s).

(** [try: m except Exception: h] *)
Definition try_except {S A} (m : M S A) (h : exn -> M S A) : M S A :=
  fun s =>
    match m s with
    | (Raise e, s') => h e s'
    | r => r
    end.

(** [try: m except TimeoutError: h] *)
Definition try_except_timeout {S A} (m : M S A) (h : M S A) : M S A :=
  fun s =>
    match m s with
    | (Raise TimeoutError, s') => h s'
    | r => r
    end.

(** A callee that works on a component of the caller's state: the caller's
    frame [L] (its local variables) is out of the callee's reach. *)
Definition zoom {L S A} (m : M S A) : M (L * S) A :=
  fun '(l, s) => let '(r, s') := m s in (r, (l, s')).

Definition locals {L S} : M (L * S) L := fun '(l, s) => (Ok l, (l, s)).
Definition set_locals {L S} (f : L -> L) : M (L * S) unit :=
  fun '(l, s) => (Ok tt, (f l, s)).

(** Runs a computation with a fresh frame and returns the frame with the
    result. *)
Definition with_locals {L S A} (l : L) (m : M (L * S) A) : M S (A * L) :=
  fun s =>
    match m (l, s) with
    | (Ok a, (l', s')) => (Ok (a, l'), s')
    | (Raise e, (_, s')) => (Raise e, s')
    | (Abort, (_, s')) => (Abort, s')
    end.

Module Import Notations.
Notation "'let*' x ':=' m 'in' k" := (bind m (fun x => k))
  (at level 10, x pattern, m at level 100, k at level 200).
Notation "m ;;; k" := (bind m (fun _ => k))
  (at level 100, k at level 200, right associativity).
End Notations.

(** ** String built-ins (on byte strings) *)

Definition lower_ascii (c : ascii) : ascii :=
  let n := nat_of_ascii c in
  if ((65 <=? n) && (n <=? 90))%nat then ascii_of_nat (n + 32) else c.

(** [s.lower()] *)
Fixpoint lower (s : string) : string :=
  match s with
  | EmptyString => EmptyString
  | String c s' => String (lower_ascii c) (lower s')
  end.

(** The double quote, for selectors that contain one. *)
Definition dquote : string := String (ascii_of_nat 34) EmptyString.

(** [s.startswith(p)] *)
Definition startswith (p s : string) : bool := String.prefix p s.

(** [sub in s] *)
Fixpoint contains (sub s : string) : bool :=
  String.prefix sub s ||
  match s with
  | EmptyString => false
  | String _ s' => contains sub s'
  end.

(** [s.split(sep)] for a one-character separator, accumulating the
    current piece in [piece]. *)
Fixpoint split_on (sep : ascii) (piece s : string) : list string :=
  match s with
  | EmptyString => [piece]
  | String c s' =>
      if Ascii.eqb c sep then piece :: split_on sep EmptyString s'
      else split_on sep (piece +:+ String c EmptyString) s'
  end.

Definition split (sep : ascii) (s : string) : list string :=
  split_on sep EmptyString s.

(** Truth value of a string. *)
Definition nonempty (s : string) : bool :=
  match s with EmptyString => false | _ => true end.

(** [any(sub in s for sub in subs)] *)
Definition any_in (subs : list string) (s : string) : bool :=
  existsb (fun sub => contains sub s) subs.

End Py.

Import Py Py.Notations.

(** ** External libraries

    [re], [urllib.parse] and [datetime] are not part of the repository: the
    crawlers are parametric in them.  [urlparse] and [urljoin] raise
    [ValueError] on some inputs (an unbalanced bracket in the host, for
    one): [None] here.  [set.pop] removes an arbitrary element:
    [set_pop_choice] is the index it picks. *)
Record ParseResult := { netloc : string; path : string }.

Class Lib := {
  (** [re.search(pattern, s)], as a truth value *)
  re_search : string -> string -> bool;
  (** [re.search(pattern, s, re.IGNORECASE)], as a truth value *)
  re_search_ignorecase : string -> string -> bool;
  urlparse : string -> option ParseResult;
  urljoin : string -> string -> option string;
  (** [datetime.isoformat()] of a time in microseconds *)
  isoformat : Z -> string;
  set_pop_choice : gset string -> nat
}.

(** What [json.dump] serialises. *)
#[warnings="-register-all"] Inductive json :=
| JStr (s : string)
| JInt (n : Z)
| JArr (items : list json)
| JObj (members : list (string * json)).

(** [s.pop()] on a set: [None] stands for the [KeyError] of an empty set. *)
Definition set_pop `{Lib} (s : gset string) : option (string * gset string) :=
  match elements s !! (set_pop_choice s mod size s)%nat with
  | Some x => Some (x, s ∖ {[x]})
  | None => None
  end.

(* ===================================================================== *)
(** * advance.py: [EcommerceCrawler] *)
(* ===================================================================== *)

Module Advance.

(** ** The Playwright page

    [W] is the state of everything behind the [page] handle: browser, site,
    network and clock.  Selectors are strings; an element handle is
    identified with the selector that found it. *)
Class Playwright (W : Type) := {
  (** [page.goto(url, wait_until="domcontentloaded", timeout=60000)] *)
  goto : string -> M W unit;
  (** [page.url] *)
  page_url : W -> string;
  (** [page.query_selector(sel)], as a truth value *)
  query_selector : string -> M W bool;
  (** [page.wait_for_selector(sel, timeout=ms)], as a truth value;
      [state='visible'] is Playwright's default *)
  wait_for_selector : string -> Z -> M W bool;
  (** [page.wait_for_load_state("networkidle", timeout=ms)] *)
  wait_for_load_state : Z -> M W unit;
  (** [page.content()] *)
  content : M W string;
  (** [page.evaluate('document.documentElement.scrollHeight')] *)
  scrollHeight : M W Z;
  (** [page.evaluate('window.innerHeight')] *)
  innerHeight : M W Z;
  (** [page.evaluate('window.scrollTo(0, document.documentElement.scrollHeight)')] *)
  scrollTo_bottom : M W unit;
  (** [page.wait_for_timeout(ms)] *)
  wait_for_timeout : Z -> M W unit;
  (** the [requestAnimationFrame]/[setTimeout] promise of
      [handle_dynamic_content] *)
  animation_frame : M W unit;
  (** [Array.from(document.querySelectorAll(sel)).map(a => a.href)] *)
  hrefs : string -> M W (list string);
  (** [element.click()] *)
  click : string -> M W unit;
  (** [datetime.now()], in microseconds; reading the clock takes time *)
  now : W -> Z * W;
  (** [with open(filename, 'w') as f: json.dump(document, f, indent=2)] *)
  json_dump : string -> json -> M W unit;
  (** [asyncio.sleep(seconds)] *)
  asyncio_sleep : Z -> W -> W
}.

(** What an observer of the crawl records. *)
Inductive event :=
| Goto (url : string)      (* a navigation to [url] succeeded *)
| At (url : string)        (* the page was found loaded at [url] *)
| Sleep (seconds : Z)      (* a backoff wait *)
| Wrote (filename : string) (document : json).  (* a file was written *)

Record ProductUrlMatch := {
  url : string;
  confidence : Q;
  matched_patterns : list string
}.

(** The attributes of [self] that are fixed after [__init__]. *)
Record EcommerceCrawler := {
  domains : list string;
  max_retries : Z;
  retry_delay : Z;
  scroll_timeout : Z;
  max_scroll_attempts : Z;
  dynamic_wait : Z;
  url_patterns : list (string * Q);
  content_patterns : list (string * Q);
  load_more_patterns : list string;
  excluded_paths : list string;
  amazon_content_patterns : list (string * Q);
  amazon_product_patterns : list (string * Q)
}.

Definition __init__ (domains : list string) (max_retries retry_delay
    scroll_timeout max_scroll_attempts dynamic_wait : Z) : EcommerceCrawler :=
  {| domains := domains;
     max_retries := max_retries;
     retry_delay := retry_delay;
     scroll_timeout := scroll_timeout;
     max_scroll_attempts := max_scroll_attempts;
     dynamic_wait := dynamic_wait;
     url_patterns := [
       ("/product[s]?/[\w-]+", 95 # 100);
       ("/p/[\w-]+", 95 # 100);
       ("/dp/", 95 # 100);
       ("/item/[\w-]+", 95 # 100);
       ("/-i-[\w-]+", 95 # 100);
       ("/pd/[\w-]+", 8 # 10);
       ("/[\w-]+-p-[\d]+", 8 # 10);
       ("/shop/[\w-]+", 6 # 10);
       ("/[\w-]+-[\d]+\.html", 6 # 10) ]%Q;
     content_patterns := [
       ("Add to (?:Cart|Basket)", 8 # 10);
       ("Product Description", 7 # 10);
       ("Buy Now", 7 # 10);
       ("Add to Wishlist", 6 # 10);
       ("Specifications", 6 # 10);
       ("Technical Details", 6 # 10);
       ("Price", 5 # 10);
       ("SKU|Item Code", 5 # 10) ]%Q;
     load_more_patterns := [
       "load more"; "show more"; "view more"; "load products";
       "next page"; "more items"; "more products" ];
     excluded_paths := [
       "/stories"; "/payments"; "/about-us"; "/contact-us"; "/help";
       "/footer"; "/policy"; "/terms"; "/careers"; "/blog" ];
     amazon_content_patterns := [
       ("#productTitle", 9 # 10);
       ("#priceblock_ourprice", 8 # 10);
       ("#buy-now-button", 8 # 10);
       ("#add-to-cart-button", 8 # 10);
       ("#breadcrumb-back-link", 7 # 10) ]%Q;
     amazon_product_patterns := [
       ("/dp/[A-Z0-9]{10}", 95 # 100);
       ("/gp/product/[A-Z0-9]{10}", 95 # 100);
       ("/[A-Za-z0-9-]+/dp/[A-Z0-9]{10}", 95 # 100) ]%Q
  |}.

(** Defaults of [__init__]. *)
Definition default_crawler (domains : list string) : EcommerceCrawler :=
  __init__ domains 3 5 30 10 5.

Section Crawler.
Context `{Lib} {W : Type} `{Playwright W}.

(** The mutable state: the browser, [self.product_urls], and the
    observer's record. *)
Record St := {
  world : W;
  product_urls : gmap string (gset string);
  trace : list event
}.

(** [self.product_urls = {domain: set() for domain in domains}] *)
Definition initial_product_urls (domains : list string)
    : gmap string (gset string) :=
  list_to_map ((fun domain => (domain, ∅)) <$> domains).

Definition start (c : EcommerceCrawler) (w : W) : St :=
  {| world := w;
     product_urls := initial_product_urls (domains c);
     trace := [] |}.

(** A call on the page. *)
Definition page {A} (op : M W A) : M St A :=
  fun s =>
    let '(r, w) := op (world s) in
    (r, {| world := w; product_urls := product_urls s; trace := trace s |}).

Definition observe (e : event) : M St unit :=
  modify (fun s =>
    {| world := world s; product_urls := product_urls s;
       trace := trace s ++ [e] |}).

Definition page_goto (url : string) : M St unit :=
  page (goto url);;; observe (Goto url).

Definition current_url : M St string :=
  let* s := get in
  let url := page_url (world s) in
  observe (At url);;; ret url.

Definition datetime_now : M St Z :=
  fun s =>
    let '(t, w) := now (world s) in
    (Ok t, {| world := w; product_urls := product_urls s; trace := trace s |}).

Definition sleep (seconds : Z) : M St unit :=
  modify (fun s =>
    {| world := asyncio_sleep seconds (world s);
       product_urls := product_urls s;
       trace := trace s ++ [Sleep seconds] |}).

(** [self.product_urls[key].add(url)] *)
Definition product_urls_add (key url : string) : M St unit :=
  fun s =>
    match product_urls s !! key with
    | Some urls =>
        (Ok tt, {| world := world s;
                   product_urls := <[key := urls ∪ {[url]}]> (product_urls s);
                   trace := trace s |})
    | None => (Raise KeyError, s)
    end.

Variable self : EcommerceCrawler.

(** ** [is_product_page] *)

(** Its local variables. *)
Record tally := {
  confidence_score : Q;
  pattern_matches : Z;
  matched : list string
}.

Definition hit (label pattern : string) (score : Q) (t : tally) : tally :=
  {| confidence_score := (confidence_score t + score)%Q;
     pattern_matches := pattern_matches t + 1;
     matched := matched t ++ [label +:+ pattern] |}.

(** [for pattern, score in table: if re.search(pattern, s): ...] *)
Fixpoint check_url_patterns (label : string) (table : list (string * Q))
    (s : string) : M (tally * St) unit :=
  match table with
  | [] => ret tt
  | (pattern, score) :: table' =>
      (if re_search pattern s
       then set_locals (hit label pattern score) else ret tt);;;
      check_url_patterns label table' s
  end.

(** [for pattern, score in self.amazon_content_patterns:
       element = await page.query_selector(pattern); if element: ...] *)
Fixpoint check_amazon_content (table : list (string * Q))
    : M (tally * St) unit :=
  match table with
  | [] => ret tt
  | (pattern, score) :: table' =>
      let* element := zoom (page (query_selector pattern)) in
      (if element
       then set_locals (hit "Amazon content pattern: " pattern score)
       else ret tt);;;
      check_amazon_content table'
  end.

(** [for pattern, score in self.content_patterns:
       if re.search(pattern, page_content, re.IGNORECASE): ...] *)
Fixpoint check_content (table : list (string * Q)) (page_content : string)
    : M (tally * St) unit :=
  match table with
  | [] => ret tt
  | (pattern, score) :: table' =>
      (if re_search_ignorecase pattern page_content
       then set_locals (hit "Content pattern: " pattern score) else ret tt);;;
      check_content table' page_content
  end.

Definition is_product_page_body (current_url_lower : string)
    : M (tally * St) unit :=
  let is_amazon := contains "amazon" current_url_lower in
  if is_amazon then
    check_url_patterns "Amazon URL pattern: " (amazon_product_patterns self)
      current_url_lower;;;
    try_except (check_amazon_content (amazon_content_patterns self))
      (fun _ => ret tt)
  else
    check_url_patterns "URL pattern: " (url_patterns self) current_url_lower;;;
    try_except
      (let* page_content := zoom (page content) in
       check_content (content_patterns self) page_content)
      (fun _ => ret tt).

Definition is_product_page : M St (option ProductUrlMatch) :=
  let* url := current_url in
  let current_url_lower := lower url in
  let* (_, t) := with_locals
    {| confidence_score := 0; pattern_matches := 0; matched := [] |}
    (is_product_page_body current_url_lower) in
  if 0 <? pattern_matches t then
    let confidence_score := (confidence_score t / inject_Z (pattern_matches t))%Q in
    if Qle_bool (1 # 2) confidence_score
    then ret (Some {| url := url; confidence := confidence_score;
                      matched_patterns := matched t |})
    else ret None
  else ret None.

(** ** [is_same_domain], [should_crawl_url] *)

Definition is_same_domain (url domain : string) : bool :=
  match urlparse url with
  | Some parsed_url => contains domain (netloc parsed_url)
  | None => false
  end.

Definition amazon_excluded_patterns : list string := [
  "/minitv"; "advertising.amazon"; "brandservices.amazon";
  "accelerator.amazon"; "aboutamazon"; "/s/"; "/b/"; "/hz/wishlist"; "/hz/";
  "/gp/help"; "/gp/css"; "/ap/signin"; "/ap/"; "/gp/cart"; "/gp/registry";
  "/stores/"; "/music/"; "/prime"; "/deals"; "/gift-cards"; "/gcx/";
  "/services"; "/business"; "/musical-instruments" ].

Definition should_crawl_url (url domain : string) : bool :=
  match urlparse url with
  | None => false
  | Some parsed_url =>
      if negb (contains domain (netloc parsed_url)) then false else
      let url_lower := lower url in
      if any_in amazon_excluded_patterns url_lower then false else
      let path := lower (path parsed_url) in
      if any_in (excluded_paths self) path then false else
      if re_search
           "(facebook|twitter|instagram|linkedin|youtube|help|support|contact|about|privacy|terms|stories)"
           path
      then false
      else true
  end.

(** ** [extract_urls_from_page] *)

Definition extract_urls_from_page : M St (gset string) :=
  try_except
    (let* links := page (hrefs "a[href]") in
     let links := filter (fun href => startswith "http" href = true) links in
     let filtered_links :=
       filter (fun link =>
                 any_in ["/signin"; "/login"; "/cart"; "/help"; "/gp/";
                         "customer-preferences"; "/language"; "/currency"]
                        (lower link) = false) links in
     ret (list_to_set filtered_links))
    (fun _ => ret ∅).

(** ** [handle_dynamic_content] *)

(** [for selector in selectors: try: wait_for_selector; return True
     except TimeoutError: continue]; [None] when the loop falls through. *)
Fixpoint probe_selectors (selectors : list string) : M St (option bool) :=
  match selectors with
  | [] => ret None
  | selector :: selectors' =>
      try_except_timeout
        (page (wait_for_selector selector (dynamic_wait self * 1000));;;
         ret (Some true))
        (probe_selectors selectors')
  end.

Definition handle_dynamic_content : M St bool :=
  try_except
    (page (wait_for_load_state (dynamic_wait self * 1000));;;
     let selectors :=
       ["[data-product]"; ".product";
        "[class*=" +:+ dquote +:+ "product" +:+ dquote +:+ "]";
        "#products"] in
     let* found := probe_selectors selectors in
     match found with
     | Some r => ret r
     | None => page animation_frame;;; ret true
     end)
    (fun _ => ret false).

(** ** [handle_infinite_scroll] *)

(** Its local variables. *)
Record scroll_frame := {
  all_urls : gset string;
  prev_height : Z;
  scroll_attempts : Z
}.

Definition load_more_selector (pattern : string) : string :=
  let text_matches :=
    ":text-matches(" +:+ dquote +:+ pattern +:+ dquote +:+ ", " +:+
    dquote +:+ "i" +:+ dquote +:+ ")" in
  "button" +:+ text_matches +:+ ", " +:+ "a" +:+ text_matches.

(** [for pattern in self.load_more_patterns: ...]: the first control that
    is found and clicked without error ends the loop. *)
Fixpoint click_load_more (patterns : list string) : M St unit :=
  match patterns with
  | [] => ret tt
  | pattern :: patterns' =>
      let* button := page (query_selector (load_more_selector pattern)) in
      if button then
        let* clicked :=
          try_except
            (page (click (load_more_selector pattern));;;
             page (wait_for_timeout (dynamic_wait self * 1000));;;
             ret true)
            (fun _ => ret false) in
        if clicked then ret tt else click_load_more patterns'
      else click_load_more patterns'
  end.

(** [timedelta.seconds] of a difference in microseconds *)
Definition timedelta_seconds (delta : Z) : Z := (delta / 1000000) mod 86400.

(** One pass through the body of the [while]; [false] is [break]. *)
Definition scroll_step (start_time : Z) : M (scroll_frame * St) bool :=
  let* current_height := zoom (page scrollHeight) in
  let* l := locals in
  let* stable :=
    if current_height =? prev_height l then
      zoom (click_load_more (load_more_patterns self));;;
      let* new_height := zoom (page scrollHeight) in
      ret (new_height =? current_height)
    else ret false in
  if (stable : bool) then ret false else
  zoom (page scrollTo_bottom);;;
  zoom (page (wait_for_timeout 1000));;;
  let* new_urls := zoom extract_urls_from_page in
  let* l := locals in
  let new_urls_count := Z.of_nat (size (new_urls ∖ all_urls l)) in
  set_locals (fun l =>
    {| all_urls := all_urls l ∪ new_urls;
       prev_height := current_height;
       scroll_attempts := scroll_attempts l + 1 |});;;
  let* t := zoom datetime_now in
  if scroll_timeout self <? timedelta_seconds (t - start_time)
  then ret false
  else
    set_locals (fun l =>
      {| all_urls := all_urls l;
         prev_height := prev_height l;
         scroll_attempts :=
           if new_urls_count =? 0 then scroll_attempts l + 1 else 0 |});;;
    ret true.

(** [while scroll_attempts < self.max_scroll_attempts: ...] *)
Fixpoint scroll_loop (fuel : nat) (start_time : Z)
    : M (scroll_frame * St) unit :=
  let* l := locals in
  if scroll_attempts l <? max_scroll_attempts self then
    match fuel with
    | O => abort
    | S fuel' =>
        let* continue := scroll_step start_time in
        if (continue : bool) then scroll_loop fuel' start_time else ret tt
    end
  else ret tt.

Definition handle_infinite_scroll (fuel : nat) : M St (gset string) :=
  let* start_time := datetime_now in
  let* (_, l) := with_locals
    {| all_urls := ∅; prev_height := 0; scroll_attempts := 0 |}
    (try_except (scroll_loop fuel start_time) (fun _ => ret tt)) in
  ret (all_urls l).

(** ** [is_captcha_present], [handle_amazon_captcha] *)

(** [for selector in captcha_selectors:
       if await page.query_selector(selector): return True] *)
Fixpoint any_selector (selectors : list string) : M St bool :=
  match selectors with
  | [] => ret false
  | selector :: selectors' =>
      let* found := page (query_selector selector) in
      if found then ret true else any_selector selectors'
  end.

Definition is_captcha_present : M St bool :=
  try_except
    (any_selector [
       "#captchacharacters";
       "form[action*=" +:+ dquote +:+ "validateCaptcha" +:+ dquote +:+ "]";
       "input[name=" +:+ dquote +:+ "amzn-captcha-verify" +:+ dquote +:+ "]";
       "body:has-text(" +:+ dquote +:+ "Enter the characters you see below"
         +:+ dquote +:+ ")";
       "body:has-text(" +:+ dquote +:+
         "Type the characters you see in this image" +:+ dquote +:+ ")" ])
    (fun _ => ret false).

(** The loop of [handle_amazon_captcha].  Both waits sit in one [try]
    whose [except TimeoutError] continues with the next selector. *)
Fixpoint await_captcha (selectors : list string) : M St bool :=
  match selectors with
  | [] => ret true
  | selector :: selectors' =>
      let* returned :=
        try_except_timeout
          (let* is_captcha := page (wait_for_selector selector 5000) in
           if is_captcha then
             page (wait_for_selector "#nav-main, #navbar" 300000);;;
             ret true
           else ret false)
          (ret false) in
      if returned then ret true else await_captcha selectors'
  end.

Definition handle_amazon_captcha : M St bool :=
  try_except
    (await_captcha [
       "#captchacharacters";
       "form[action*=" +:+ dquote +:+ "validateCaptcha" +:+ dquote +:+ "]";
       "input[name=" +:+ dquote +:+ "amzn-captcha-verify" +:+ dquote +:+ "]" ])
    (fun _ => ret false).

(** ** [crawl_with_retry] *)

(** [urlparse(url).netloc] *)
Definition netloc_of (url : string) : M St string :=
  match urlparse url with
  | Some parsed_url => ret (netloc parsed_url)
  | None => raise ValueError
  end.

(** [for pattern, confidence in self.amazon_product_patterns:
       if re.search(pattern, url): ...; return True];
    [false] when the loop falls through. *)
Fixpoint fast_path (table : list (string * Q)) (url : string) : M St bool :=
  match table with
  | [] => ret false
  | (pattern, confidence) :: table' =>
      if re_search pattern url then
        page_goto url;;;
        let* key := netloc_of url in
        product_urls_add key url;;;
        ret true
      else fast_path table' url
  end.

(** The body of the [try]. *)
Definition crawl_with_retry_try (url : string) : M St bool :=
  let* returned :=
    if contains "amazon" url
    then fast_path (amazon_product_patterns self) url
    else ret false in
  if returned then ret true else
  page_goto url;;;
  let* captcha := is_captcha_present in
  let* handled := if captcha then handle_amazon_captcha else ret true in
  if negb handled then ret false else
  try_except_timeout (page (wait_for_load_state 30000)) (ret tt);;;
  ret true.

Equations? crawl_with_retry (url : string) (retry_count : Z) (s : St)
    : res bool * St by wf (Z.to_nat (max_retries self - retry_count)) lt :=
  crawl_with_retry url retry_count s with crawl_with_retry_try url s => {
    | (Raise e, s') with Z_lt_dec retry_count (max_retries self) => {
        | left _ =>
            crawl_with_retry url (retry_count + 1)
              (sleep (retry_delay self * (retry_count + 1)) s').2
        | right _ => (Ok false, s') };
    | (r, s') => (r, s') }.
Proof. lia. Qed.

(** ** [crawl_page] *)

Definition crawl_page (fuel : nat) (domain : string) : M St (gset string) :=
  try_except
    (let* product_match := is_product_page in
     let* returned :=
       match product_match with
       | Some m =>
           if Qle_bool (7 # 10) (confidence m) then
             product_urls_add domain (url m);;; ret true
           else ret false
       | None => ret false
       end in
     if returned then ret ∅ else
     handle_dynamic_content;;;
     let* all_urls := extract_urls_from_page in
     let* page_height := page scrollHeight in
     let* viewport_height := page innerHeight in
     let* all_urls :=
       if viewport_height * 2 <? page_height then
         let* scroll_urls := handle_infinite_scroll fuel in
         ret (all_urls ∪ scroll_urls)
       else ret all_urls in
     ret (filter (fun url => is_same_domain url domain = true) all_urls))
    (fun _ => ret ∅).

(** ** [crawl_domain] *)

(** Its local variables. *)
Record frontier := {
  visited_urls : gset string;
  urls_to_visit : gset string
}.

(** One pass through the body of the [while]. *)
Definition crawl_domain_step (fuel : nat) (domain : string)
    : M (frontier * St) unit :=
  let* l := locals in
  match set_pop (urls_to_visit l) with
  | None => raise KeyError
  | Some (url, rest) =>
      set_locals (fun l =>
        {| visited_urls := visited_urls l; urls_to_visit := rest |});;;
      if decide (url ∈ visited_urls l) then ret tt else
      set_locals (fun l =>
        {| visited_urls := visited_urls l ∪ {[url]};
           urls_to_visit := urls_to_visit l |});;;
      let* ok := zoom (crawl_with_retry url 0) in
      if (ok : bool) then
        let* new_urls := zoom (crawl_page fuel domain) in
        set_locals (fun l =>
          {| visited_urls := visited_urls l;
             urls_to_visit :=
               urls_to_visit l ∪
               filter (fun url =>
                         (url ∉ visited_urls l) ∧ (url ∉ urls_to_visit l) ∧
                         should_crawl_url url domain = true) new_urls |})
      else ret tt
  end.

(** [while urls_to_visit and len(visited_urls) < 50: ...] *)
Fixpoint crawl_domain_loop (fuel : nat) (domain : string)
    : M (frontier * St) unit :=
  let* l := locals in
  if negb (bool_decide (urls_to_visit l = ∅)) &&
     (Z.of_nat (size (visited_urls l)) <? 50) then
    match fuel with
    | O => abort
    | S fuel' =>
        crawl_domain_step fuel' domain;;; crawl_domain_loop fuel' domain
    end
  else ret tt.

(** The [try] block of [crawl_domain], on its frame; [true] when it
    returns early. *)
Definition crawl_domain_body (fuel : nat) (domain : string)
    : M (frontier * St) bool :=
  let homepage_url := "https://www." +:+ domain in
  try_except
    (let* ok := zoom (crawl_with_retry homepage_url 0) in
     if negb ok then ret true else
     let* homepage_urls := zoom extract_urls_from_page in
     set_locals (fun l =>
       {| visited_urls := visited_urls l;
          urls_to_visit := homepage_urls ∖ visited_urls l |});;;
     set_locals (fun l =>
       {| visited_urls := visited_urls l ∪ {[homepage_url]};
          urls_to_visit := urls_to_visit l |});;;
     crawl_domain_loop fuel domain;;;
     ret false)
    (fun _ => ret false).

(** After the [try], the summary line reads
    [len(self.product_urls[domain])]. *)
Definition crawl_domain (fuel : nat) (domain : string) : M St unit :=
  let* (returned, _) :=
    with_locals {| visited_urls := ∅; urls_to_visit := ∅ |}
      (crawl_domain_body fuel domain) in
  if (returned : bool) then ret tt else
  let* s := get in
  match product_urls s !! domain with
  | Some _ => ret tt
  | None => raise KeyError
  end.

(** ** [save_results] *)

(** [{"urls": list(urls), "count": len(urls),
      "timestamp": datetime.now().isoformat()}] *)
Definition result_entry (urls : gset string) : M St json :=
  let* t := datetime_now in
  ret (JObj [("urls", JArr (JStr <$> elements urls));
             ("count", JInt (Z.of_nat (size urls)));
             ("timestamp", JStr (isoformat t))]).

(** [{domain: ... for domain, urls in self.product_urls.items()}] *)
Fixpoint result_entries (items : list (string * gset string))
    : M St (list (string * json)) :=
  match items with
  | [] => ret []
  | (domain, urls) :: items' =>
      let* entry := result_entry urls in
      let* entries := result_entries items' in
      ret ((domain, entry) :: entries)
  end.

Definition save_results (filename : string) : M St unit :=
  try_except
    (let* s := get in
     let* members := result_entries (map_to_list (product_urls s)) in
     let results := JObj members in
     page (json_dump filename results);;;
     observe (Wrote filename results))
    (fun _ => ret tt).

End Crawler.
End Advance.

(* ===================================================================== *)
(** * version2.py: [DomainCrawler] and [ParallelCrawler] *)
(* ===================================================================== *)

Module Version2.

(** ** The network, the Selenium driver and the file system

    [V] is the state of everything outside the interpreter. *)
Class Web (V : Type) := {
  (** [async with self.session.get(url) as response]: the status and the
      [Content-Type] header (empty when absent) *)
  session_get : string -> M V (Z * string);
  (** [await response.text()] *)
  response_text : M V string;
  (** [[a.get('href') for a in BeautifulSoup(text, 'html.parser')
        .find_all('a', href=True)]] *)
  soup_hrefs : string -> list string;
  (** [self.driver.get(url)] *)
  driver_get : string -> M V unit;
  (** [WebDriverWait(self.driver, 10).until(presence of body)] *)
  wait_for_body : M V unit;
  (** [self.driver.execute_script("return document.body.scrollHeight")] *)
  scrollHeight : M V Z;
  (** [self.driver.execute_script("window.scrollTo(0, document.body.scrollHeight);")] *)
  scrollTo_bottom : M V unit;
  (** [time.sleep(seconds)] *)
  time_sleep : Z -> M V unit;
  (** [find_elements(By.TAG_NAME, "a")], each with the outcome of
      [get_attribute('href')]: [None] when it raises or returns nothing *)
  anchor_hrefs : M V (list (option string));
  (** [webdriver.Chrome(options=chrome_options)], in
      [DomainCrawler.__init__] *)
  webdriver_Chrome : M V unit;
  (** [asyncio.wait_for(asyncio.gather( *tasks), timeout=seconds)] over the
      [start()] coroutines of the given domains *)
  wait_for_gather : list string -> Z -> M V (list (list string));
  (** [with open(filename, 'w') as f: json.dump(document, f, indent=2)] *)
  json_dump : string -> json -> M V unit
}.

(** The attributes of a [DomainCrawler] that are fixed after [__init__]. *)
Record DomainCrawler := {
  domain : string;
  domain_name : string;
  max_urls : Z;
  max_depth : Z;
  product_patterns : list string;
  exclude_patterns : list string
}.

(** Its mutable attributes. *)
Record attrs := {
  visited_urls : gset string;
  product_urls : gset string
}.

(** In the source the entries [r'/b/'] and [r'/b\?node='] of the
    [amazon.in] list are adjacent string literals without a comma, hence
    one pattern. *)
Definition domain_specific_exclude_patterns : gmap string (list string) :=
  {[ "amazon.in" :=
       [ "/gp/"; "/s\?"; "/b//b\?node="; "/prime"; "/customer-preferences";
         "/minitv"; "/business"; "/now"; "/fresh"; "/deliveries" ];
     "flipkart.com" :=
       [ "/q/"; "gift-card-store"; "/returnpolicy"; "/helpcentre";
         "/payments"; "/paymentsecurity"; "/shipping"; "/terms"; "/plus";
         "/wishlist" ] ]}.

Section Crawler.
Context `{Lib} {V : Type} `{Web V}.

(** [DomainCrawler.__init__]; [None] when [urlparse(domain)] raises. *)
Definition __init__ (domain : string) (max_urls max_depth : Z)
    : option DomainCrawler :=
  match urlparse domain with
  | None => None
  | Some parsed =>
      let domain_name := netloc parsed in
      let exclude_patterns := [
        "/career[s]?"; "/contact[-]?us"; "/about[-]?us"; "/login"; "/cart";
        "/checkout"; "/account"; "/search"; "/privacy"; "/terms"; "/refund";
        "/faq"; "/help"; "/payment[s]?"; "/order[s]?"; "/viewcart";
        "/wishlist"; "/track"; "/signin"; "/signup"; "/register";
        "/signout"; "/unsubscribe"; "/download"; "/support"; "/forum";
        "/blog"; "/news"; "/article"; "/gallery"; "/media"; "/stories";
        "/press"; "/events"; "/offer[s]?"; "/footer" ] in
      Some {|
        domain := domain;
        domain_name := domain_name;
        max_urls := max_urls;
        max_depth := max_depth;
        product_patterns := [ "/product[s]?/"; "/item/"; "/p/"; "/dp/" ];
        exclude_patterns :=
          match domain_specific_exclude_patterns !! domain_name with
          | Some specific => exclude_patterns ++ specific
          | None => exclude_patterns
          end
      |}
  end.

Definition initial_attrs : attrs :=
  {| visited_urls := ∅; product_urls := ∅ |}.

Variable self : DomainCrawler.

Definition is_product_url (url : string) : bool :=
  existsb (fun pattern => re_search_ignorecase pattern url)
          (product_patterns self).

Definition should_exclude_url (url : string) : bool :=
  existsb (fun pattern => re_search_ignorecase pattern url)
          (exclude_patterns self).

(** [None] when [urlparse] raises. *)
Definition get_url_depth (url : string) : option Z :=
  match urlparse url with
  | Some parsed =>
      Some (Z.of_nat (length (filter (fun x => nonempty x = true)
                                     (split "/" (path parsed)))))
  | None => None
  end.

(** ** [handle_dynamic_content] *)

(** [for element in elements: ... if link: links.add(link)] *)
Definition add_links (elements : list (option string)) (links : gset string)
    : gset string :=
  foldl (fun links element =>
           match element with
           | Some link => if nonempty link then links ∪ {[link]} else links
           | None => links
           end) links elements.

(** The [while scroll_attempts < max_scroll_attempts] loop, with
    [remaining = max_scroll_attempts - scroll_attempts]. *)
Fixpoint scroll_links (remaining : nat) (last_height : Z)
    (links : gset string) : M V (gset string) :=
  match remaining with
  | O => ret links
  | S remaining' =>
      scrollTo_bottom;;;
      time_sleep 2;;;
      let* new_height := scrollHeight in
      let* elements := anchor_hrefs in
      let links := add_links elements links in
      if new_height =? last_height then ret links
      else scroll_links remaining' new_height links
  end.

Definition handle_dynamic_content (url : string) : M V (list string) :=
  try_except
    (driver_get url;;;
     wait_for_body;;;
     let* last_height := scrollHeight in
     let max_scroll_attempts := 5%nat in
     let* links := scroll_links max_scroll_attempts last_height ∅ in
     ret (elements links))
    (fun _ => ret []).

(** ** [crawl_url]

    A call of [crawl_url] runs in two uninterrupted stretches: from its
    start to [session.get], and from the arrival of the response to
    [asyncio.gather].  Other calls run in between. *)

Inductive entered := Returned | Suspended.

(** From the start of [crawl_url(url)] to the [await] of [session.get];
    [ValueError] escapes from [get_url_depth]. *)
Definition crawl_url_enter (url : string) : M attrs entered :=
  let* a := get in
  if bool_decide (url ∈ visited_urls a) || should_exclude_url url
  then ret Returned else
  if max_urls self <=? Z.of_nat (size (product_urls a))
  then ret Returned else
  match get_url_depth url with
  | None => raise ValueError
  | Some depth =>
      if max_depth self <? depth then ret Returned else
      modify (fun a =>
        {| visited_urls := visited_urls a ∪ {[url]};
           product_urls := product_urls a |});;;
      ret Suspended
  end.

Definition from_option {S A} (e : exn) (o : option A) : M S A :=
  match o with
  | Some a => ret a
  | None => raise e
  end.

(** [for link in links: ...], collecting in [tasks] the URLs for which
    [self.crawl_url(absolute_url)] is created. *)
Fixpoint scan_links (links : list string) (tasks : list string)
    : M (attrs * V) (list string) :=
  match links with
  | [] => ret tasks
  | link :: links' =>
      let* a := locals in
      if max_urls self <=? Z.of_nat (size (product_urls a)) then ret tasks
      else
        let* absolute_url := from_option ValueError (urljoin (domain self) link) in
        let* parsed := from_option ValueError (urlparse absolute_url) in
        let* parsed_domain := from_option ValueError (urlparse (domain self)) in
        if String.eqb (netloc parsed) (netloc parsed_domain) then
          if is_product_url absolute_url then
            set_locals (fun a =>
              {| visited_urls := visited_urls a;
                 product_urls := product_urls a ∪ {[absolute_url]} |});;;
            scan_links links' tasks
          else if bool_decide (absolute_url ∉ visited_urls a) then
            scan_links links' (tasks ++ [absolute_url])
          else scan_links links' tasks
        else scan_links links' tasks
  end.

(** From the response to [asyncio.gather]: the URLs of the calls that are
    gathered. *)
Definition crawl_url_resume (url : string) : M (attrs * V) (list string) :=
  try_except
    (let* (status, content_type) := zoom (session_get url) in
     if status =? 200 then
       let* text := zoom response_text in
       let* links :=
         if contains "application/javascript" content_type
         then zoom (handle_dynamic_content url)
         else ret (soup_hrefs text) in
       scan_links links []
     else ret [])
    (fun _ => ret []).

(** ** The event loop

    The calls of [crawl_url] that are alive, each with the number of links
    followed from the entry point to reach it.  The hops, [discovered] and
    [requested] are kept for the statement of properties; the code has no
    such records. *)
Inductive task :=
| Called (url : string) (hops : nat)
| Awaiting (url : string) (hops : nat).

Record loop := {
  crawler : attrs;
  tasks : list task;
  (** for each visited URL, the hops of the call that visited it *)
  discovered : gmap string nat;
  (** the URLs passed to [session.get], latest last *)
  requested : list string;
  outside : V
}.

Definition delete_nth {A} (i : nat) (l : list A) : list A :=
  take i l ++ drop (S i) l.

(** The event loop runs task [i] up to its next [await].  A call that
    returns, raises or is never resumed leaves the loop. *)
Definition step (i : nat) (p : loop) : loop :=
  match tasks p !! i with
  | None => p
  | Some (Called url hops) =>
      match crawl_url_enter url (crawler p) with
      | (Ok Suspended, a) =>
          {| crawler := a;
             tasks := <[i := Awaiting url hops]> (tasks p);
             discovered := <[url := hops]> (discovered p);
             requested := requested p ++ [url];
             outside := outside p |}
      | (_, a) =>
          {| crawler := a;
             tasks := delete_nth i (tasks p);
             discovered := discovered p;
             requested := requested p;
             outside := outside p |}
      end
  | Some (Awaiting url hops) =>
      match crawl_url_resume url (crawler p, outside p) with
      | (Ok gathered, (a, v)) =>
          {| crawler := a;
             tasks := delete_nth i (tasks p) ++
                      ((fun url => Called url (S hops)) <$> gathered);
             discovered := discovered p;
             requested := requested p;
             outside := v |}
      | (_, (a, v)) =>
          {| crawler := a;
             tasks := delete_nth i (tasks p);
             discovered := discovered p;
             requested := requested p;
             outside := v |}
      end
  end.

(** [start()]: the loop holds the call [crawl_url(self.domain)]. *)
Definition start (v : V) : loop :=
  {| crawler := initial_attrs;
     tasks := [Called (domain self) 0];
     discovered := ∅;
     requested := [];
     outside := v |}.

(** The loop after the scheduler has picked the tasks of [schedule] in
    turn.  A crawl that is cut short by the timeout of [wait_for] or by
    [KeyboardInterrupt] is a schedule that ends early. *)
Definition run (schedule : list nat) (p : loop) : loop :=
  foldl (fun p i => step i p) p schedule.

End Crawler.

(** ** [ParallelCrawler] *)

Record ParallelCrawler := {
  domains : list string;
  output_file : string;
  max_urls_per_domain : Z;
  pc_max_depth : Z;
  timeout_seconds : Z
}.

(** What an observer of [ParallelCrawler] records. *)
Inductive event :=
| Wrote (filename : string) (document : json).

Section Parallel.
Context `{Lib} {V : Type} `{Web V}.
Variable self : ParallelCrawler.

(** The state: [self.results] (in insertion order), the outside, and the
    observer's record. *)
Record PSt := {
  results : list (string * list string);
  world : V;
  trace : list event
}.

Definition outer {A} (op : M V A) : M PSt A :=
  fun s =>
    let '(r, v) := op (world s) in
    (r, {| results := results s; world := v; trace := trace s |}).

(** [self.results[domain] = urls] *)
Definition results_set (domain : string) (urls : list string)
    (results : list (string * list string)) : list (string * list string) :=
  if existsb (fun '(d, _) => String.eqb d domain) results
  then (fun '(d, old) => if String.eqb d domain then (d, urls) else (d, old))
         <$> results
  else results ++ [(domain, urls)].

(** [for domain, urls in zip(self.domains, results): ...] *)
Definition store_results (gathered : list (list string)) : M PSt unit :=
  modify (fun s =>
    {| results :=
         foldl (fun results '(domain, urls) => results_set domain urls results)
               (results s) (zip (domains self) gathered);
       world := world s;
       trace := trace s |}).

Definition save_results : M PSt unit :=
  let* s := get in
  let document :=
    JObj ((fun '(domain, urls) => (domain, JArr (JStr <$> urls)))
            <$> results s) in
  outer (json_dump (output_file self) document);;;
  modify (fun s =>
    {| results := results s; world := world s;
       trace := trace s ++ [Wrote (output_file self) document] |}).

(** [for domain in self.domains: crawler = DomainCrawler(...)]: the
    constructor parses the domain and launches a browser. *)
Fixpoint construct_crawlers (domains : list string) : M PSt unit :=
  match domains with
  | [] => ret tt
  | domain :: domains' =>
      match __init__ domain (max_urls_per_domain self) (pc_max_depth self) with
      | Some _ => outer webdriver_Chrome
      | None => raise ValueError
      end;;;
      construct_crawlers domains'
  end.

Definition crawl_all_domains : M PSt unit :=
  construct_crawlers (domains self);;;
  try_except
    (let* gathered :=
       outer (wait_for_gather (domains self) (timeout_seconds self)) in
     store_results gathered)
    (fun e =>
       match e with
       | AsyncioTimeoutError => ret tt
       | _ => ret tt
       end);;;
  save_results.

End Parallel.
End Version2.

(* ===================================================================== *)
(** * An executable model of the external libraries *)
(* ===================================================================== *)

Module PyModel.

(** ** Regular expressions

    The fragment of [re] syntax that the pattern tables use: literals,
    [.], escapes, classes with ranges, groups, alternation and the
    quantifiers [?], [*], [+], [{n}].  Matching is by derivatives. *)
Module Regex.

Inductive regex :=
| Fail
| Eps
| Class (negated : bool) (ranges : list (nat * nat))
| Seq (r1 r2 : regex)
| Alt (r1 r2 : regex)
| Star (r : regex).

Definition seq (r1 r2 : regex) : regex :=
  match r1, r2 with
  | Fail, _ | _, Fail => Fail
  | Eps, r | r, Eps => r
  | _, _ => Seq r1 r2
  end.

Definition alt (r1 r2 : regex) : regex :=
  match r1, r2 with
  | Fail, r | r, Fail => r
  | _, _ => Alt r1 r2
  end.

Fixpoint power (n : nat) (r : regex) : regex :=
  match n with
  | O => Eps
  | S n' => seq r (power n' r)
  end.

Definition char (c : ascii) : regex :=
  Class false [(nat_of_ascii c, nat_of_ascii c)].

Definition digits : list (nat * nat) := [(48, 57)]%nat.
Definition word : list (nat * nat) :=
  [(97, 122); (65, 90); (48, 57); (95, 95)]%nat.

Fixpoint nullable (r : regex) : bool :=
  match r with
  | Fail | Class _ _ => false
  | Eps | Star _ => true
  | Seq r1 r2 => nullable r1 && nullable r2
  | Alt r1 r2 => nullable r1 || nullable r2
  end.

Definition in_ranges (ranges : list (nat * nat)) (n : nat) : bool :=
  existsb (fun '(lo, hi) => (lo <=? n) && (n <=? hi))%nat ranges.

Definition upper_nat (n : nat) : nat :=
  if ((97 <=? n) && (n <=? 122))%nat then (n - 32)%nat else n.
Definition lower_nat (n : nat) : nat :=
  if ((65 <=? n) && (n <=? 90))%nat then (n + 32)%nat else n.

Definition class_matches (ignorecase negated : bool)
    (ranges : list (nat * nat)) (c : ascii) : bool :=
  let n := nat_of_ascii c in
  let found :=
    in_ranges ranges n ||
    (ignorecase && (in_ranges ranges (upper_nat n) ||
                    in_ranges ranges (lower_nat n))) in
  xorb negated found.

Fixpoint deriv (ignorecase : bool) (c : ascii) (r : regex) : regex :=
  match r with
  | Fail | Eps => Fail
  | Class negated ranges =>
      if class_matches ignorecase negated ranges c then Eps else Fail
  | Seq r1 r2 =>
      alt (seq (deriv ignorecase c r1) r2)
          (if nullable r1 then deriv ignorecase c r2 else Fail)
  | Alt r1 r2 => alt (deriv ignorecase c r1) (deriv ignorecase c r2)
  | Star r1 => seq (deriv ignorecase c r1) (Star r1)
  end.

(** Some prefix of [s] matches [r]. *)
Fixpoint matches_prefix (ignorecase : bool) (r : regex) (s : string) : bool :=
  nullable r ||
  match s with
  | EmptyString => false
  | String c s' =>
      match deriv ignorecase c r with
      | Fail => false
      | r' => matches_prefix ignorecase r' s'
      end
  end.

(** Some substring of [s] matches [r]. *)
Fixpoint search (ignorecase : bool) (r : regex) (s : string) : bool :=
  matches_prefix ignorecase r s ||
  match s with
  | EmptyString => false
  | String _ s' => search ignorecase r s'
  end.

(** *** Parsing *)

Definition escape (c : ascii) : list (nat * nat) :=
  if Ascii.eqb c "w" then word
  else if Ascii.eqb c "d" then digits
  else [(nat_of_ascii c, nat_of_ascii c)].

(** The items of a class up to the closing bracket. *)
Fixpoint parse_class (fuel : nat) (s : string) (ranges : list (nat * nat))
    : option (list (nat * nat) * string) :=
  match fuel with
  | O => None
  | S fuel' =>
      match s with
      | EmptyString => None
      | String "]" s' => Some (ranges, s')
      | String "\" (String c s') =>
          parse_class fuel' s' (ranges ++ escape c)
      | String lo (String "-" (String hi s')) =>
          if Ascii.eqb hi "]"
          then Some (ranges ++ [(nat_of_ascii lo, nat_of_ascii lo);
                                (45, 45)%nat], s')
          else parse_class fuel' s'
                 (ranges ++ [(nat_of_ascii lo, nat_of_ascii hi)])
      | String c s' =>
          parse_class fuel' s' (ranges ++ [(nat_of_ascii c, nat_of_ascii c)])
      end
  end.

(** A decimal number up to the closing brace. *)
Fixpoint parse_count (fuel : nat) (s : string) (n : nat)
    : option (nat * string) :=
  match fuel with
  | O => None
  | S fuel' =>
      match s with
      | String "}" s' => Some (n, s')
      | String c s' =>
          let d := nat_of_ascii c in
          if ((48 <=? d) && (d <=? 57))%nat
          then parse_count fuel' s' (10 * n + (d - 48))%nat
          else None
      | EmptyString => None
      end
  end.

Definition quantified (fuel : nat) (r : regex) (s : string)
    : option (regex * string) :=
  match s with
  | String "?" s' => Some (alt Eps r, s')
  | String "*" s' => Some (Star r, s')
  | String "+" s' => Some (seq r (Star r), s')
  | String "{" s' =>
      match parse_count fuel s' 0 with
      | Some (n, s'') => Some (power n r, s'')
      | None => None
      end
  | _ => Some (r, s)
  end.

(** An alternation, up to the end of the pattern or an unmatched closing
    parenthesis.  [branch] is the sequence read so far in the current
    branch. *)
Fixpoint parse_alt (fuel : nat) (branch : regex) (s : string)
    : option (regex * string) :=
  match fuel with
  | O => None
  | S fuel' =>
      let continue atom :=
        match atom with
        | Some (r, s') =>
            match quantified fuel' r s' with
            | Some (r', s'') => parse_alt fuel' (seq branch r') s''
            | None => None
            end
        | None => None
        end in
      match s with
      | EmptyString => Some (branch, s)
      | String ")" _ => Some (branch, s)
      | String "|" s' =>
          match parse_alt fuel' Eps s' with
          | Some (r, s'') => Some (alt branch r, s'')
          | None => None
          end
      | String "(" s' =>
          let s' :=
            match s' with
            | String "?" (String ":" s'') => s''
            | _ => s'
            end in
          continue
            match parse_alt fuel' Eps s' with
            | Some (r, String ")" s'') => Some (r, s'')
            | _ => None
            end
      | String "[" (String "^" s') =>
          continue
            match parse_class fuel' s' [] with
            | Some (ranges, s'') => Some (Class true ranges, s'')
            | None => None
            end
      | String "[" s' =>
          continue
            match parse_class fuel' s' [] with
            | Some (ranges, s'') => Some (Class false ranges, s'')
            | None => None
            end
      | String "\" (String c s') => continue (Some (Class false (escape c), s'))
      | String "." s' => continue (Some (Class true [(10, 10)%nat], s'))
      | String c s' => continue (Some (char c, s'))
      end
  end.

Definition compile (pattern : string) : option regex :=
  match parse_alt (2 * String.length pattern + 2) Eps pattern with
  | Some (r, EmptyString) => Some r
  | _ => None
  end.

(** [re.search(pattern, s, flags)] as a truth value; a pattern outside the
    fragment matches nothing. *)
Definition re_search (ignorecase : bool) (pattern s : string) : bool :=
  match compile pattern with
  | Some r => search ignorecase r s
  | None => false
  end.

End Regex.

(** ** [urllib.parse]

    A model of [urlparse] and [urljoin] for URLs of the shape
    [scheme://netloc/path?query#fragment] without [;parameters], and for
    references that are absolute, protocol-relative, rooted at [/] or
    relative to the directory of the base; dot segments are not
    resolved. *)

(** The part of [s] before the first character that satisfies [p], and the
    rest. *)
Fixpoint break_at (p : ascii -> bool) (s : string) : string * string :=
  match s with
  | EmptyString => (EmptyString, EmptyString)
  | String c s' =>
      if p c then (EmptyString, s)
      else let '(before, rest) := break_at p s' in (String c before, rest)
  end.

Definition is_one_of (chars : string) (c : ascii) : bool :=
  existsb (Ascii.eqb c) (list_ascii_of_string chars).

Definition is_alpha (c : ascii) : bool :=
  let n := nat_of_ascii c in
  ((65 <=? n) && (n <=? 90) || (97 <=? n) && (n <=? 122))%nat.

Definition is_scheme_char (c : ascii) : bool :=
  let n := nat_of_ascii c in
  is_alpha c || ((48 <=? n) && (n <=? 57))%nat || is_one_of "+-." c.

(** The scheme (empty when there is none) and what follows its colon. *)
Definition split_scheme (url : string) : string * string :=
  match break_at (Ascii.eqb ":") url with
  | (String c scheme, String _ rest) =>
      if is_alpha c && forallb is_scheme_char (list_ascii_of_string scheme)
      then (lower (String c scheme), rest)
      else (EmptyString, url)
  | _ => (EmptyString, url)
  end.

Record SplitResult := {
  sr_scheme : string;
  sr_netloc : string;
  sr_path : string
}.

Definition urlsplit (url : string) : option SplitResult :=
  let '(scheme, rest) := split_scheme url in
  let '(netloc, rest) :=
    if String.prefix "//" rest
    then break_at (is_one_of "/?#") (String.substring 2 (String.length rest) rest)
    else (EmptyString, rest) in
  if xorb (contains "[" netloc) (contains "]" netloc) then None else
  let '(path, _) := break_at (is_one_of "?#") rest in
  Some {| sr_scheme := scheme; sr_netloc := netloc; sr_path := path |}.

Definition urlparse (url : string) : option ParseResult :=
  match urlsplit url with
  | Some r => Some {| netloc := sr_netloc r; path := sr_path r |}
  | None => None
  end.

(** The path up to and including its last slash. *)
Fixpoint dirname (path : string) : string :=
  match path with
  | EmptyString => EmptyString
  | String c path' =>
      if contains "/" path' then String c (dirname path')
      else if Ascii.eqb c "/" then "/" else EmptyString
  end.

Definition urljoin (base url : string) : option string :=
  match urlsplit base, urlsplit url with
  | Some b, Some u =>
      if negb (nonempty url) then Some base
      else if nonempty (sr_scheme u) then Some url
      else if String.prefix "//" url then Some (sr_scheme b +:+ ":" +:+ url)
      else
        let root := sr_scheme b +:+ "://" +:+ sr_netloc b in
        if String.prefix "/" url then Some (root +:+ url)
        else if nonempty (dirname (sr_path b))
        then Some (root +:+ dirname (sr_path b) +:+ url)
        else Some (root +:+ "/" +:+ url)
  | _, _ => None
  end.

(** ** [datetime.isoformat]

    Time is counted in microseconds from 1970-01-01T00:00:00. *)

Definition digit (n : Z) : string :=
  String (ascii_of_nat (48 + Z.to_nat (n mod 10))) EmptyString.

(** [n] in decimal, zero-padded to [width] digits. *)
Fixpoint decimal (width : nat) (n : Z) : string :=
  match width with
  | O => EmptyString
  | S width' => decimal width' (n / 10) +:+ digit n
  end.

(** Year, month and day of a day number (proleptic Gregorian). *)
Definition civil_from_days (days : Z) : Z * Z * Z :=
  let z := days + 719468 in
  let era := z / 146097 in
  let doe := z - era * 146097 in
  let yoe := (doe - doe / 1460 + doe / 36524 - doe / 146096) / 365 in
  let doy := doe - (365 * yoe + yoe / 4 - yoe / 100) in
  let mp := (5 * doy + 2) / 153 in
  let d := doy - (153 * mp + 2) / 5 + 1 in
  let m := if mp <? 10 then mp + 3 else mp - 9 in
  let y := yoe + era * 400 + (if m <=? 2 then 1 else 0) in
  (y, m, d).

Definition isoformat (t : Z) : string :=
  let micro := t mod 1000000 in
  let seconds := t / 1000000 in
  let '(y, m, d) := civil_from_days (seconds / 86400) in
  let sod := seconds mod 86400 in
  decimal 4 y +:+ "-" +:+ decimal 2 m +:+ "-" +:+ decimal 2 d +:+ "T" +:+
  decimal 2 (sod / 3600) +:+ ":" +:+ decimal 2 (sod / 60 mod 60) +:+ ":" +:+
  decimal 2 (sod mod 60) +:+
  (if micro =? 0 then EmptyString else "." +:+ decimal 6 micro).

(** [set.pop] takes the first element in the order of [elements]. *)
Definition lib : Lib :=
  Build_Lib (Regex.re_search false) (Regex.re_search true)
            urlparse urljoin isoformat (fun _ => 0%nat).

(** ** A scripted browser for [advance.py]

    A site tells, for each URL, whether navigation succeeds, which
    selectors match, and what the document holds after a number of
    scrolls.  Every operation takes time. *)
Record site := {
  (** outcome of a navigation, given how many navigations came before *)
  navigate : string -> nat -> res unit;
  (** [query_selector] finds an element *)
  present : string -> string -> bool;
  (** [wait_for_selector] finds one before the timeout (ms) *)
  appears : string -> string -> Z -> bool;
  (** the network goes idle before the timeout *)
  idle : string -> bool;
  html : string -> string;
  (** the hrefs of the anchors after a number of scrolls *)
  anchors : string -> nat -> list string;
  (** [scrollHeight] after a number of scrolls *)
  height : string -> nat -> Z;
  viewport : Z
}.

Record browser := {
  on : site;
  location : string;
  scrolls : nat;
  navigations : nat;
  clock : Z;
  files : list (string * json)
}.

Definition tick (ms : Z) (b : browser) : browser :=
  {| on := on b; location := location b; scrolls := scrolls b;
     navigations := navigations b; clock := clock b + ms * 1000;
     files := files b |}.

Definition open_browser (s : site) : browser :=
  {| on := s; location := "about:blank"; scrolls := 0; navigations := 0;
     clock := 0; files := [] |}.

Definition playwright : Advance.Playwright browser := {|
  Advance.goto url b :=
    (navigate (on b) url (navigations b),
     {| on := on b;
        location := match navigate (on b) url (navigations b) with
                    | Ok _ => url
                    | _ => location b
                    end;
        scrolls := match navigate (on b) url (navigations b) with
                   | Ok _ => 0%nat
                   | _ => scrolls b
                   end;
        navigations := S (navigations b);
        clock := clock b + 1000000;
        files := files b |});
  Advance.page_url := location;
  Advance.query_selector selector b :=
    (Ok (present (on b) (location b) selector), tick 1 b);
  Advance.wait_for_selector selector timeout b :=
    if appears (on b) (location b) selector timeout
    then (Ok true, tick 1 b)
    else (Raise TimeoutError, tick timeout b);
  Advance.wait_for_load_state timeout b :=
    if idle (on b) (location b) then (Ok tt, tick 1 b)
    else (Raise TimeoutError, tick timeout b);
  Advance.content b := (Ok (html (on b) (location b)), tick 1 b);
  Advance.scrollHeight b :=
    (Ok (height (on b) (location b) (scrolls b)), tick 1 b);
  Advance.innerHeight b := (Ok (viewport (on b)), tick 1 b);
  Advance.scrollTo_bottom b :=
    (Ok tt, tick 1 {| on := on b; location := location b;
                      scrolls := S (scrolls b);
                      navigations := navigations b; clock := clock b;
                      files := files b |});
  Advance.wait_for_timeout ms b := (Ok tt, tick ms b);
  Advance.animation_frame b := (Ok tt, tick 1000 b);
  Advance.hrefs _ b :=
    (Ok (anchors (on b) (location b) (scrolls b)), tick 1 b);
  Advance.click _ b := (Ok tt, tick 1 b);
  Advance.now b := (clock b, tick 0 b);
  Advance.json_dump filename document b :=
    (Ok tt, {| on := on b; location := location b; scrolls := scrolls b;
               navigations := navigations b; clock := clock b;
               files := files b ++ [(filename, document)] |});
  Advance.asyncio_sleep seconds b := tick (seconds * 1000) b
|}.

(** A site without CAPTCHA, load-more controls or product markers where
    every navigation succeeds: [links] gives the anchors of each page and
    [heights] its [scrollHeight], both after a number of scrolls. *)
Definition plain_site (links : string -> nat -> list string)
    (heights : string -> nat -> Z) : site :=
  {| navigate := fun _ _ => Ok tt;
     present := fun _ _ => false;
     appears := fun _ _ _ => false;
     idle := fun _ => true;
     html := fun _ => EmptyString;
     anchors := links;
     height := heights;
     viewport := 1080 |}.

(** ** A scripted web for [version2.py]

    A page is its status, its [Content-Type] and its text; the text of a
    page is the list of its hrefs, separated by spaces. *)
Record web := {
  respond : string -> res (Z * string * string);
  (** outcome of [asyncio.wait_for(asyncio.gather(...))] *)
  gathering : res (list (list string));
  last_text : string;
  written : list (string * json)
}.

Definition web_with_text (text : string) (w : web) : web :=
  {| respond := respond w; gathering := gathering w; last_text := text;
     written := written w |}.

Definition selenium_web : Version2.Web web := {|
  Version2.session_get url w :=
    match respond w url with
    | Ok (status, content_type, text) =>
        (Ok (status, content_type), web_with_text text w)
    | Raise e => (Raise e, w)
    | Abort => (Abort, w)
    end;
  Version2.response_text w := (Ok (last_text w), w);
  Version2.soup_hrefs text :=
    filter (fun x => nonempty x = true) (split " " text);
  Version2.driver_get url w :=
    match respond w url with
    | Ok (_, _, text) => (Ok tt, web_with_text text w)
    | Raise e => (Raise e, w)
    | Abort => (Abort, w)
    end;
  Version2.wait_for_body w := (Ok tt, w);
  Version2.scrollHeight w := (Ok 1000, w);
  Version2.scrollTo_bottom w := (Ok tt, w);
  Version2.time_sleep _ w := (Ok tt, w);
  Version2.anchor_hrefs w :=
    (Ok (Some <$> filter (fun x => nonempty x = true)
                         (split " " (last_text w))), w);
  Version2.webdriver_Chrome w := (Ok tt, w);
  Version2.wait_for_gather _ _ w := (gathering w, w);
  Version2.json_dump filename document w :=
    (Ok tt, {| respond := respond w; gathering := gathering w;
               last_text := last_text w;
               written := written w ++ [(filename, document)] |})
|}.

(** A web of static HTML pages, all served with status 200. *)
Definition static_web (pages : string -> string) : web :=
  {| respond := fun url => Ok (200, "text/html", pages url);
     gathering := Ok [];
     last_text := EmptyString;
     written := [] |}.

End PyModel.

(* ===================================================================== *)
(** * Specifications *)
(* ===================================================================== *)

(** ** Relations between the states before and after a computation *)

Module Rely.

(** [respects R m]: whatever [m] does, and however it ends, the state it
    leaves is related by [R] to the state it found. *)
Definition respects {S A} (R : relation S) (m : M S A) : Prop :=
  forall s, R s (m s).2.

(** The relation on a frame and a state that constrains each component. *)
Definition both {L S} (RL : relation L) (RS : relation S) : relation (L * S) :=
  fun x y => RL x.1 y.1 /\ RS x.2 y.2.

(** The relation that constrains nothing. *)
Definition anything {S} : relation S := fun _ _ => True.

(** A property, read as the relation of preserving it. *)
Definition keeps {S} (P : S -> Prop) : relation S := fun s s' => P s -> P s'.

End Rely.

(** ** advance.py *)

Module AdvanceSpec.
Import Advance.




(** The waits that an observer has recorded, oldest first. *)
Definition backoffs (t : list event) : list Z :=
  omap (fun e => match e with Sleep seconds => Some seconds | _ => None end) t.


Section Spec.
Context `{Lib} {W : Type} `{Playwright W}.
Variable self : EcommerceCrawler.





(** Only the browser changes. *)
Definition quiet : relation (@St W) :=
  fun s s' => product_urls s' = product_urls s /\ trace s' = trace s.

(** No backoff wait is made. *)
Definition no_backoff : relation (@St W) :=
  fun s s' => backoffs (trace s') = backoffs (trace s).


(** [failures url retry_count s k s']: from [s], with the retry counter at
    [retry_count], [k] attempts on [url] raise in a row, each followed by
    its backoff wait; the next attempt starts in [s']. *)
Inductive failures (url : string) : Z -> @St W -> nat -> @St W -> Prop :=
| failures_none retry_count s : failures url retry_count s 0 s
| failures_more retry_count s e s1 k s' :
    crawl_with_retry_try self url s = (Raise e, s1) ->
    failures url (retry_count + 1)
             (sleep (retry_delay self * (retry_count + 1)) s1).2 k s' ->
    failures url retry_count s (S k) s'.

(** The waits of a linear backoff: [retry_delay * (retry_count + i)] for
    [i] from 1 to [k]. *)
Definition linear_backoff (retry_count : Z) (k : nat) : list Z :=
  (fun i : nat => retry_delay self * (retry_count + Z.of_nat i)) <$> seq 1 k.

(** The frontier of [crawl_domain] before its first pass. *)
Definition empty_frontier : frontier :=
  {| visited_urls := ∅; urls_to_visit := ∅ |}.

(** The visited set stays as it is, and what enters [urls_to_visit]
    passes [should_crawl_url]. *)
Definition grows_filtered (domain : string) : relation frontier :=
  fun l l' =>
    visited_urls l' = visited_urls l /\
    forall u, u ∈ urls_to_visit l' ->
      u ∈ urls_to_visit l \/ should_crawl_url self u domain = true.

(** Every URL of the frontier is one of [entry] or passes
    [should_crawl_url]. *)
Definition frontier_filtered (domain : string) (entry : gset string)
    (l : frontier) : Prop :=
  forall u, u ∈ visited_urls l \/ u ∈ urls_to_visit l ->
    u ∈ entry \/ should_crawl_url self u domain = true.

(** The keys of [product_urls] are the configured domains. *)
Definition keys_configured (s : @St W) : Prop :=
  dom (product_urls s) = list_to_set (domains self).

(** The keys of [product_urls] stay as they are. *)
Definition same_keys : relation (@St W) :=
  fun s s' => dom (product_urls s') = dom (product_urls s).

(** Every wait for a selector ends, with an element or by its timeout. *)
Definition waits_time_out : Prop :=
  forall selector timeout (w : W),
    match (wait_for_selector selector timeout w).1 with
    | Ok _ | Raise TimeoutError => True
    | _ => False
    end.



End Spec.



End AdvanceSpec.

(** ** version2.py *)

Module Version2Spec.
Import Version2.

Section Spec.
Context `{Lib} {V : Type} `{Web V}.
Variable self : DomainCrawler.

(** The number of recorded product URLs is within [max_urls]. *)
Definition product_bound (a : attrs) : Prop :=
  Z.of_nat (size (product_urls a)) <= Z.max 0 (max_urls self).

(** Every visited URL passed the exclusion patterns and has at most
    [max_depth] path segments. *)
Definition visited_allowed (a : attrs) : Prop :=
  forall u, u ∈ visited_urls a ->
    should_exclude_url self u = false /\
    exists depth, get_url_depth u = Some depth /\ depth <= max_depth self.

(** Every recorded product URL matches a product pattern and has the
    netloc of the entry point. *)
Definition products_matched (a : attrs) : Prop :=
  forall u, u ∈ product_urls a ->
    is_product_url self u = true /\
    exists parsed parsed_domain,
      urlparse u = Some parsed /\
      urlparse (domain self) = Some parsed_domain /\
      netloc parsed = netloc parsed_domain.

Definition crawl_invariant (a : attrs) : Prop :=
  product_bound a /\ visited_allowed a /\ products_matched a.

End Spec.



End Version2Spec.

(** ** Sites and crawls to run the crawlers on *)

Module Scenarios.
Import PyModel.

#[export] Existing Instance lib.
#[export] Existing Instance playwright.
#[export] Existing Instance selenium_web.

(** A browser that has loaded [url]. *)
Definition browser_at (s : site) (url : string) : browser :=
  {| on := s; location := url; scrolls := 0; navigations := 1;
     clock := 1000000; files := [] |}.

(** *** A shop with static pages *)

Definition shop : Advance.EcommerceCrawler :=
  Advance.default_crawler ["shop.example"].

(** Its home page links to a catalog page and to the about-us page. *)
Definition shop_links (url : string) (scrolls : nat) : list string :=
  if String.eqb url "https://www.shop.example"
  then ["https://www.shop.example/catalog";
        "https://www.shop.example/about-us"]
  else [].

Definition shop_site : site := plain_site shop_links (fun _ _ => 1000).

Definition about_us : string := "https://www.shop.example/about-us".

(** The frontier and the state at the end of the crawl of the shop. *)
Definition shop_crawl_end : res bool * (Advance.frontier * @Advance.St browser) :=
  Advance.crawl_domain_body shop 10 "shop.example"
    (AdvanceSpec.empty_frontier, Advance.start shop (open_browser shop_site)).

(** The product page of the scenario of the specification. *)
Definition at_product_page : @Advance.St browser :=
  Advance.start shop (browser_at shop_site "https://shop.example/dp/B000123").

(** *** A catalog with infinite scroll

    The page is five viewports high.  The first scroll brings twelve links
    and makes the page grow; later scrolls bring nothing. *)
Definition catalog_url : string := "https://www.shop.example/catalog".

Definition initial_links : list string := ["https://www.shop.example/item/0"].

Definition scrolled_links : list string :=
  (fun i => "https://www.shop.example/item/" +:+ i)
    <$> ["1"; "2"; "3"; "4"; "5"; "6"; "7"; "8"; "9"; "10"; "11"; "12"].

Definition catalog_links (url : string) (scrolls : nat) : list string :=
  match scrolls with
  | O => initial_links
  | S _ => initial_links ++ scrolled_links
  end.

(** The height stays as it is once the first scroll has loaded the links. *)
Definition settled_catalog : site :=
  plain_site catalog_links
    (fun _ scrolls => match scrolls with O => 5400 | S _ => 6000 end).

(** The height keeps changing although no link arrives. *)
Definition restless_catalog : site :=
  plain_site catalog_links (fun _ scrolls => 5400 + 600 * Z.of_nat scrolls).

Definition at_catalog (s : site) : @Advance.St browser :=
  Advance.start shop (browser_at s catalog_url).

(** The settled catalog after two scrolls, and the frame of the scroll
    loop at that point. *)
Definition settled_after_two_scrolls : @Advance.St browser :=
  Advance.start shop
    {| on := settled_catalog; location := catalog_url; scrolls := 2;
       navigations := 1; clock := 3000000; files := [] |}.

Definition frame_after_two_scrolls : Advance.scroll_frame :=
  {| Advance.all_urls := list_to_set (initial_links ++ scrolled_links);
     Advance.prev_height := 6000;
     Advance.scroll_attempts := 2 |}.

Definition fresh_frame : Advance.scroll_frame :=
  {| Advance.all_urls := ∅; Advance.prev_height := 0;
     Advance.scroll_attempts := 0 |}.

(** *** A site whose first two navigations fail *)

Definition flaky_site : site :=
  {| navigate := fun _ earlier =>
       if (earlier <? 2)%nat then Raise TimeoutError else Ok tt;
     present := fun _ _ => false;
     appears := fun _ _ _ => false;
     idle := fun _ => true;
     html := fun _ => EmptyString;
     anchors := fun _ _ => [];
     height := fun _ _ => 1000;
     viewport := 1080 |}.

Definition flaky_start : @Advance.St browser :=
  Advance.start shop (open_browser flaky_site).

(** The state in which attempt [n] on the catalog starts, each earlier
    attempt being followed by its backoff wait. *)
Fixpoint flaky_attempt (n : nat) : @Advance.St browser :=
  match n with
  | O => flaky_start
  | S n' =>
      (Advance.sleep (Advance.retry_delay shop * Z.of_nat n)
         (Advance.crawl_with_retry_try shop catalog_url (flaky_attempt n')).2).2
  end.

(** *** A site behind a CAPTCHA that nobody solves

    The CAPTCHA form is on every page; the navigation bar never comes. *)
Definition captcha_site : site :=
  {| navigate := fun _ _ => Ok tt;
     present := fun _ selector => String.eqb selector "#captchacharacters";
     appears := fun _ selector _ => String.eqb selector "#captchacharacters";
     idle := fun _ => true;
     html := fun _ => EmptyString;
     anchors := fun _ _ => [];
     height := fun _ _ => 1000;
     viewport := 1080 |}.

Definition captcha_fetch : res bool * @Advance.St browser :=
  Advance.crawl_with_retry shop catalog_url 0
    (Advance.start shop (open_browser captcha_site)).

(** *** Amazon, as configured in advance.py *)

Definition amazon : Advance.EcommerceCrawler :=
  Advance.default_crawler ["amazon.in"].

Definition amazon_product_url : string := "https://www.amazon.in/dp/B000123456".

Definition amazon_start : @Advance.St browser :=
  Advance.start amazon (open_browser (plain_site (fun _ _ => []) (fun _ _ => 1000))).

(** *** A shop crawled by version2.py *)

Definition shop_pages (url : string) : string :=
  if String.eqb url "https://shop.example" then "/a /p/1"
  else if String.eqb url "https://shop.example/a" then "/b"
  else if String.eqb url "https://shop.example/b" then "/c /p/2"
  else EmptyString.


Definition no_crawler : Version2.DomainCrawler :=
  {| Version2.domain := EmptyString; Version2.domain_name := EmptyString;
     Version2.max_urls := 0; Version2.max_depth := 0;
     Version2.product_patterns := []; Version2.exclude_patterns := [] |}.

Definition shop_crawler (max_urls max_depth : Z) : Version2.DomainCrawler :=
  default no_crawler (Version2.__init__ "https://shop.example" max_urls max_depth).

(** The scheduler always picks the oldest task. *)
Definition oldest_first (steps : nat) : list nat := replicate steps 0%nat.

(** The crawl of the shop with room for ten products and depth one, and
    the crawl of the shop without products with room for one, both run to
    the end. *)
Definition shop_crawl : @Version2.loop web :=
  Version2.run (shop_crawler 10 1) (oldest_first 12)
    (Version2.start (shop_crawler 10 1) (static_web shop_pages)).


Definition parallel : Version2.ParallelCrawler :=
  {| Version2.domains := ["https://shop.example"];
     Version2.output_file := "product_urls.json";
     Version2.max_urls_per_domain := 500;
     Version2.pc_max_depth := 3;
     Version2.timeout_seconds := 3600 |}.

Definition parallel_start (gathered : res (list (list string)))
    : @Version2.PSt web :=
  {| Version2.results := [];
     Version2.world :=
       {| respond := fun _ => Ok (200, "text/html", EmptyString);
          gathering := gathered;
          last_text := EmptyString;
          written := [] |};
     Version2.trace := [] |}.

End Scenarios.
(* ===================================================================== *)
(** * Further specifications *)
(* ===================================================================== *)

(** ** Results of computations *)

Module Ensures.

(** [ensures m Q]: whenever [m] returns, what it returns satisfies [Q]. *)
Definition ensures {S A} (m : M S A) (Q : A -> Prop) : Prop :=
  forall s a s', m s = (Ok a, s') -> Q a.

(** [m] may return or be cancelled, but it does not raise. *)
Definition never_raises {S A} (m : M S A) : Prop :=
  forall s e, (m s).1 <> Raise e.

End Ensures.

(** ** advance.py: links and records *)

Module LinkSpec.
Import Advance.

(** The fragments that [extract_urls_from_page] looks for in a link. *)
Definition excluded_fragments : list string :=
  ["/signin"; "/login"; "/cart"; "/help"; "/gp/"; "customer-preferences";
   "/language"; "/currency"].

(** A link that [extract_urls_from_page] lets through. *)
Definition clean_link (u : string) : Prop :=
  startswith "http" u = true /\ any_in excluded_fragments (lower u) = false.

Section Spec.
Context `{Lib} {W : Type} `{Playwright W}.
Variable self : EcommerceCrawler.

(** The links that the scroll loop has gathered passed the extraction. *)
Definition frame_clean (l : scroll_frame) : Prop :=
  forall u, u ∈ all_urls l -> clean_link u.

(** A link that [crawl_page] returns and [crawl_domain] lets in. *)
Definition followed_link (domain u : string) : Prop :=
  clean_link u /\ is_same_domain u domain = true /\
  should_crawl_url self u domain = true.

(** The visited set stays as it is, and what enters [urls_to_visit] is a
    followed link. *)
Definition grows_followed (domain : string) : relation frontier :=
  fun l l' =>
    visited_urls l' = visited_urls l /\
    forall u, u ∈ urls_to_visit l' ->
      u ∈ urls_to_visit l \/ followed_link domain u.

(** Every URL of the frontier is one of [entry] or a followed link. *)
Definition frontier_followed (domain : string) (entry : gset string)
    (l : frontier) : Prop :=
  forall u, u ∈ visited_urls l \/ u ∈ urls_to_visit l ->
    u ∈ entry \/ followed_link domain u.

(** Every key is kept, and the set under it has not lost a URL. *)
Definition records_grow : relation (@St W) :=
  fun s s' =>
    dom (product_urls s') = dom (product_urls s) /\
    forall key urls, product_urls s !! key = Some urls ->
      exists urls', product_urls s' !! key = Some urls' /\ urls ⊆ urls'.

(** Between states that differ in the browser and in the observer's
    record only. *)
Definition same_records : relation (@St W) :=
  fun s s' => product_urls s' = product_urls s.

(** The observer's record has only grown. *)
Definition trace_grows : relation (@St W) :=
  fun s s' => trace s `prefix_of` trace s'.

End Spec.
End LinkSpec.

(** ** version2.py: the event loop *)

Module LoopSpec.
Import Version2.

Section Spec.
Context `{Lib} {V : Type} `{Web V}.
Variable self : DomainCrawler.

(** The URL of the call that a task stands for. *)
Definition task_url (t : task) : string :=
  match t with
  | Called url _ => url
  | Awaiting url _ => url
  end.

(** The visited set stays as it is. *)
Definition same_visited : relation attrs :=
  fun a a' => visited_urls a' = visited_urls a.

(** Neither set loses a URL. *)
Definition attrs_grow : relation attrs :=
  fun a a' =>
    visited_urls a ⊆ visited_urls a' /\ product_urls a ⊆ product_urls a'.

(** The requests made so far are the visited URLs, one request each. *)
Definition requested_once (p : @loop V) : Prop :=
  NoDup (requested p) /\
  forall u, u ∈ requested p <-> u ∈ visited_urls (crawler p).

(** A URL on the netloc of the entry point that matches no product
    pattern. *)
Definition on_site (u : string) : Prop :=
  is_product_url self u = false /\
  exists parsed parsed_domain,
    urlparse u = Some parsed /\
    urlparse (domain self) = Some parsed_domain /\
    netloc parsed = netloc parsed_domain.

(** Every call of [crawl_url], alive or past its first stretch, is for
    the entry point or for a URL on its site. *)
Definition calls_on_site (p : @loop V) : Prop :=
  (forall u, u ∈ visited_urls (crawler p) -> u = domain self \/ on_site u) /\
  (forall t, t ∈ tasks p -> task_url t = domain self \/ on_site (task_url t)).

(** No call of [crawl_url] has got past its checks. *)
Definition idle (p : @loop V) : Prop :=
  crawler p = initial_attrs /\ requested p = [] /\
  forall t, t ∈ tasks p -> exists url hops, t = Called url hops.

End Spec.

Section Parallel.
Context {V : Type}.

(** Neither [self.results] nor the observer's record has changed. *)
Definition nothing_stored : relation (@PSt V) :=
  fun s s' => results s' = results s /\ trace s' = trace s.

End Parallel.
End LoopSpec.

(** ** More sites and crawls *)

Module MoreScenarios.
Import PyModel Scenarios.

(** A URL of another site whose netloc holds the domain of the shop. *)
Definition lookalike_url : string := "https://shop.example.evil.test/x".

(** The shop before the crawl of advance.py. *)
Definition shop_start : @Advance.St browser :=
  Advance.start shop (open_browser shop_site).

(** The links of the home page of the shop. *)
Definition shop_homepage_urls : gset string :=
  list_to_set ["https://www.shop.example/catalog";
               "https://www.shop.example/about-us"].

(** A [ParallelCrawler] whose second domain does not parse. *)
Definition broken_parallel : Version2.ParallelCrawler :=
  {| Version2.domains := ["https://shop.example"; "https://[shop"];
     Version2.output_file := "product_urls.json";
     Version2.max_urls_per_domain := 500;
     Version2.pc_max_depth := 3;
     Version2.timeout_seconds := 3600 |}.

End MoreScenarios.

(* ===================================================================== *)
(** * Proofs: facts about finite sets *)
(* ===================================================================== *)

Module SetFacts.

Lemma size_union_singleton (X : gset string) (x : string) :
  (size (X ∪ {[x]}) <= S (size X))%nat.
Proof.
  rewrite size_union_alt.
  assert (size ({[x]} ∖ X) <= size ({[x]} : gset string))%nat as Hle
    by (apply subseteq_size; set_solver).
  rewrite size_singleton in Hle. lia.
Qed.

(** A scroll that brings no link that is not known already leaves the
    known links as they are, and conversely. *)
Lemma no_gain (X Y : gset string) :
  Z.of_nat (size (Y ∖ X)) = 0 <-> X ∪ Y = X.
Proof.
  split.
  - intros Hsize.
    assert (Y ∖ X = ∅) as Hnone
      by (apply leibniz_equiv, size_empty_inv; lia).
    apply set_eq. intros x. split; [|set_solver].
    intros [?|Hx]%elem_of_union; [done|].
    destruct (decide (x ∈ X)); [done|].
    assert (x ∈ Y ∖ X) as Hin by set_solver.
    rewrite Hnone in Hin. by apply not_elem_of_empty in Hin.
  - intros Hsame.
    assert (Y ∖ X = ∅) as -> by set_solver.
    by rewrite size_empty.
Qed.

End SetFacts.

(* ===================================================================== *)
(** * Proofs: rules for [respects] *)
(* ===================================================================== *)

Module RelyRules.
Import Rely.

#[export] Instance both_preorder {L S} (RL : relation L) (RS : relation S) :
  PreOrder RL -> PreOrder RS -> PreOrder (both RL RS).
Proof.
  intros HL HS. split.
  - intros [l s]. split; reflexivity.
  - intros [l1 s1] [l2 s2] [l3 s3] [? ?] [? ?]. split; etrans; eauto.
Qed.

#[export] Instance anything_preorder {S} : PreOrder (@anything S).
Proof. by split. Qed.

#[export] Instance keeps_preorder {S} (P : S -> Prop) : PreOrder (keeps P).
Proof. split; unfold keeps; [intros s; tauto | intros s1 s2 s3; tauto]. Qed.

Section Rules.
Context {S : Type} (R : relation S) `{!PreOrder R}.

Lemma respects_ret {A} (a : A) : respects R (ret a).
Proof. intros s. reflexivity. Qed.

Lemma respects_raise {A} e : respects R (@raise S A e).
Proof. intros s. reflexivity. Qed.

Lemma respects_abort {A} : respects R (@abort S A).
Proof. intros s. reflexivity. Qed.

Lemma respects_get : respects R (@get S).
Proof. intros s. reflexivity. Qed.

Lemma respects_modify f : (forall s, R s (f s)) -> respects R (modify f).
Proof. intros Hf s. apply Hf. Qed.

Lemma respects_bind {A B} (m : M S A) (k : A -> M S B) :
  respects R m -> (forall a, respects R (k a)) -> respects R (bind m k).
Proof.
  intros Hm Hk s. unfold bind. specialize (Hm s).
  destruct (m s) as [[a|e|] s']; simpl in *; try done.
  etrans; [exact Hm | apply Hk].
Qed.

Lemma respects_try_except {A} (m : M S A) h :
  respects R m -> (forall e, respects R (h e)) -> respects R (try_except m h).
Proof.
  intros Hm Hh s. unfold try_except. specialize (Hm s).
  destruct (m s) as [[a|e|] s']; simpl in *; try done.
  etrans; [exact Hm | apply Hh].
Qed.

Lemma respects_try_except_timeout {A} (m h : M S A) :
  respects R m -> respects R h -> respects R (try_except_timeout m h).
Proof.
  intros Hm Hh s. unfold try_except_timeout. specialize (Hm s).
  destruct (m s) as [[a|[]|] s']; simpl in *; try done.
  etrans; [exact Hm | apply Hh].
Qed.

Lemma respects_from_option {A} e (o : option A) :
  respects R (Version2.from_option e o).
Proof. destruct o; intros s; reflexivity. Qed.

End Rules.

Lemma respects_anything {S A} (m : M S A) : respects anything m.
Proof. by intros s. Qed.

Section Frames.
Context {L S : Type} (RL : relation L) (RS : relation S).
Context `{!PreOrder RL, !PreOrder RS}.

Lemma respects_zoom {A} (m : M S A) :
  respects RS m -> respects (both RL RS) (zoom m).
Proof.
  intros Hm [l s]. unfold zoom. specialize (Hm s).
  destruct (m s) as [r s']. split; simpl; [reflexivity | done].
Qed.

Lemma respects_locals : respects (both RL RS) (@locals L S).
Proof. intros [l s]. reflexivity. Qed.

Lemma respects_set_locals f :
  (forall l, RL l (f l)) -> respects (both RL RS) (@set_locals L S f).
Proof. intros Hf [l s]. split; simpl; [apply Hf | reflexivity]. Qed.

Lemma respects_with_locals {A} l (m : M (L * S) A) :
  respects (both RL RS) m -> respects RS (with_locals l m).
Proof.
  intros Hm s. unfold with_locals. specialize (Hm (l, s)).
  destruct (m (l, s)) as [[a|e|] [l' s']]; apply Hm.
Qed.

End Frames.

Create HintDb rely discriminated.

(** One structural step of a [respects] goal; what is left is looked up
    among the lemmas of [rely]. *)
Ltac step :=
  lazymatch goal with
  | |- PreOrder _ => typeclasses eauto
  | |- forall _, _ => intros
  | |- respects _ (bind _ _) => apply respects_bind
  | |- respects _ (ret _) => apply respects_ret
  | |- respects _ (raise _) => apply respects_raise
  | |- respects _ abort => apply respects_abort
  | |- respects _ get => apply respects_get
  | |- respects _ locals => apply respects_locals
  | |- respects _ (set_locals _) => apply respects_set_locals
  | |- anything _ _ => exact I
  | |- respects _ (Version2.from_option _ _) => apply respects_from_option
  | |- respects _ (try_except _ _) => apply respects_try_except
  | |- respects _ (try_except_timeout _ _) => apply respects_try_except_timeout
  | |- respects _ (zoom _) => apply respects_zoom
  | |- respects anything _ => apply respects_anything
  | |- respects _ (if ?b then _ else _) => destruct b eqn:?
  | |- respects _ (match ?x with _ => _ end) => destruct x eqn:?
  | |- respects _ _ => solve [eauto with rely]
  end.

Ltac steps := repeat step.

End RelyRules.

(* ===================================================================== *)
(** * Proofs: the page classifier *)
(* ===================================================================== *)

Module Classifier.
Import Advance Rely RelyRules AdvanceSpec.





Section Proofs.
Context `{Lib} {W : Type} `{Playwright W}.
Variable self : EcommerceCrawler.







End Proofs.
End Classifier.

(* ===================================================================== *)
(** * Proofs: the access gate and the page crawl *)
(* ===================================================================== *)

Module AccessGate.
Import Advance Rely RelyRules AdvanceSpec.

Section Gate.
Context `{Lib} {W : Type} `{Playwright W}.
Variable self : EcommerceCrawler.

#[local] Abbreviation quiet := (@quiet W).
#[local] Abbreviation no_backoff := (@no_backoff W).

(** ** Computations that only touch the browser *)

#[export] Instance quiet_preorder : PreOrder quiet.
Proof.
  split; [by intros s | intros s1 s2 s3 [? ?] [? ?]].
  split; congruence.
Qed.

Lemma quiet_page {A} (op : M W A) : respects quiet (page op).
Proof. intros s. unfold page. by destruct (op (world s)). Qed.

Lemma quiet_datetime_now : respects quiet datetime_now.
Proof. intros s. unfold datetime_now. by destruct (now (world s)). Qed.

#[local] Hint Resolve quiet_page quiet_datetime_now : rely.

Lemma quiet_any_selector selectors : respects quiet (any_selector selectors).
Proof. induction selectors; simpl; steps. Qed.

Lemma quiet_is_captcha_present : respects quiet is_captcha_present.
Proof. unfold is_captcha_present. steps. apply quiet_any_selector. Qed.

Lemma quiet_await_captcha selectors : respects quiet (await_captcha selectors).
Proof. induction selectors; simpl; steps. Qed.

Lemma quiet_handle_amazon_captcha : respects quiet handle_amazon_captcha.
Proof. unfold handle_amazon_captcha. steps. apply quiet_await_captcha. Qed.

Lemma quiet_extract_urls_from_page : respects quiet extract_urls_from_page.
Proof. unfold extract_urls_from_page. steps. Qed.

Lemma quiet_probe_selectors selectors :
  respects quiet (probe_selectors self selectors).
Proof. induction selectors; simpl; steps. Qed.

Lemma quiet_handle_dynamic_content :
  respects quiet (handle_dynamic_content self).
Proof. unfold handle_dynamic_content. steps. apply quiet_probe_selectors. Qed.

Lemma quiet_click_load_more patterns :
  respects quiet (click_load_more self patterns).
Proof. induction patterns; simpl; steps. Qed.

#[local] Hint Resolve quiet_extract_urls_from_page quiet_click_load_more : rely.

Lemma quiet_scroll_step start_time :
  respects (both (@anything scroll_frame) quiet)
           (scroll_step self start_time).
Proof.
  unfold scroll_step. steps.
Qed.

Lemma quiet_scroll_loop fuel start_time :
  respects (both (@anything scroll_frame) quiet)
           (scroll_loop self fuel start_time).
Proof.
  induction fuel; simpl; steps. apply quiet_scroll_step.
Qed.

Lemma quiet_handle_infinite_scroll fuel :
  respects quiet (handle_infinite_scroll self fuel).
Proof.
  unfold handle_infinite_scroll. steps.
  eapply (respects_with_locals anything). steps.
  apply quiet_scroll_loop.
Qed.

Lemma quiet_check_url_patterns label table str :
  respects (both (@anything tally) quiet)
           (check_url_patterns label table str).
Proof. induction table as [|[] ?]; simpl; steps. Qed.

Lemma quiet_check_content table page_content :
  respects (both (@anything tally) quiet) (check_content table page_content).
Proof. induction table as [|[] ?]; simpl; steps. Qed.

Lemma quiet_check_amazon_content table :
  respects (both (@anything tally) quiet) (check_amazon_content table).
Proof. induction table as [|[] ?]; simpl; steps. Qed.

#[local] Hint Resolve quiet_check_url_patterns quiet_check_content
  quiet_check_amazon_content : rely.

Lemma quiet_is_product_page_body current_url_lower :
  respects (both (@anything tally) quiet)
           (is_product_page_body self current_url_lower).
Proof. unfold is_product_page_body. steps. Qed.

(** ** The unfolding of [crawl_with_retry] *)

Lemma crawl_with_retry_eq url retry_count (s : @St W) :
  crawl_with_retry self url retry_count s =
  match crawl_with_retry_try self url s with
  | (Raise e, s') =>
      if decide (retry_count < max_retries self) then
        crawl_with_retry self url (retry_count + 1)
          (sleep (retry_delay self * (retry_count + 1)) s').2
      else (Ok false, s')
  | r => r
  end.
Proof.
  rewrite crawl_with_retry_equation_1.
  destruct (crawl_with_retry_try self url s) as [[a|e|] s']; simpl; try done.
  destruct (Z_lt_dec retry_count (max_retries self)); simpl;
    case_decide; done.
Qed.

(** ** What an observer can rely on

    A relation between states that holds across browser calls, across the
    recording of a navigation or of the current URL, and across the
    insertion of a URL that has been recorded as navigated to or as
    current, holds across the access gate and the page crawl. *)
Section Observer.
Variable R : relation (@St W).
Context `{!PreOrder R}.
Hypothesis R_quiet : forall s s', quiet s s' -> R s s'.
Hypothesis R_observe : forall u, respects R (observe (Goto u)) /\
                                 respects R (observe (At u)).
Hypothesis R_add : forall key u s,
  Goto u ∈ trace s \/ At u ∈ trace s -> R s (product_urls_add key u s).2.

Lemma respects_quiet {A} (m : M St A) : respects quiet m -> respects R m.
Proof. intros Hm s. apply R_quiet, Hm. Qed.

Lemma respects_page_goto url : respects R (page_goto url).
Proof.
  unfold page_goto. steps; [apply respects_quiet, quiet_page | apply R_observe].
Qed.

Lemma page_goto_recorded url (s s' : @St W) :
  page_goto url s = (Ok tt, s') -> Goto url ∈ trace s'.
Proof.
  unfold page_goto, bind, page, observe, modify.
  destruct (goto url (world s)) as [[[]|e|] w]; intros [= <-]; simpl.
  apply elem_of_app. right. constructor.
Qed.

Lemma respects_fast_path table url : respects R (fast_path table url).
Proof.
  induction table as [|[pattern confidence] table IH]; simpl; [steps|].
  destruct (re_search pattern url); [|exact IH].
  intros s. unfold bind.
  pose proof (respects_page_goto url s) as Hgoto.
  destruct (page_goto url s) as [[[]|e|] s1] eqn:Heq; simpl in *; try done.
  apply page_goto_recorded in Heq.
  unfold netloc_of. destruct (urlparse url) as [parsed|]; simpl; [|done].
  pose proof (R_add (netloc parsed) url s1 (or_introl Heq)) as Hadd.
  destruct (product_urls_add (netloc parsed) url s1) as [[[]|e|] s2];
    simpl in *; by etrans.
Qed.

Lemma respects_crawl_with_retry_try url :
  respects R (crawl_with_retry_try self url).
Proof.
  unfold crawl_with_retry_try.
  steps; auto using respects_fast_path, respects_page_goto, respects_quiet,
    quiet_is_captcha_present, quiet_handle_amazon_captcha, quiet_page.
Qed.

Lemma respects_crawl_with_retry url retry_count :
  (forall seconds, respects R (sleep seconds)) ->
  respects R (crawl_with_retry self url retry_count).
Proof.
  intros R_sleep s. revert url retry_count s.
  apply (crawl_with_retry_elim self
           (fun url retry_count s r => R s r.2)); simpl.
  - intros url rc s a s' Heq.
    pose proof (respects_crawl_with_retry_try url s) as Htry.
    by rewrite Heq in Htry.
  - intros url rc s s' Heq.
    pose proof (respects_crawl_with_retry_try url s) as Htry.
    by rewrite Heq in Htry.
  - intros url rc Hlt s e s' IH _ Heq.
    pose proof (respects_crawl_with_retry_try url s) as Htry.
    rewrite Heq in Htry. simpl in Htry.
    etrans; [exact Htry|]. etrans; [apply R_sleep | exact IH].
  - intros url rc Hge s e s' _ Heq.
    pose proof (respects_crawl_with_retry_try url s) as Htry.
    by rewrite Heq in Htry.
Qed.

(** [is_product_page] reports the URL it has recorded as current. *)
Lemma is_product_page_observed (s : @St W) :
  R s (is_product_page self s).2 /\
  forall m, (is_product_page self s).1 = Ok (Some m) ->
            At (url m) ∈ trace (is_product_page self s).2.
Proof.
  unfold is_product_page, current_url, bind, get, observe, modify. simpl.
  set (u := page_url (world s)).
  set (s1 := {| world := world s; product_urls := product_urls s;
                trace := trace s ++ [At u] |}).
  assert (R s s1) as Hobs by apply (proj2 (R_observe u) s).
  assert (At u ∈ trace s1) as Hat.
  { simpl. apply elem_of_app. right. constructor. }
  pose proof (respects_with_locals anything quiet
                {| confidence_score := 0; pattern_matches := 0; matched := [] |}
                _ (quiet_is_product_page_body (lower u)) s1) as Hbody.
  destruct (with_locals _ _ s1) as [[[[] t]|e|] s2]; simpl in *.
  - assert (R s s2) as HR by (etrans; [exact Hobs | by apply R_quiet]).
    destruct Hbody as [_ Htrace].
    repeat match goal with
           | |- context [if ?b then _ else _] => destruct b
           end; simpl.
    all: split; [done|]; intros m ?; simplify_eq/=; by rewrite Htrace.
  - split; [|done]. etrans; [exact Hobs | by apply R_quiet].
  - split; [|done]. etrans; [exact Hobs | by apply R_quiet].
Qed.

#[local] Hint Resolve respects_quiet quiet_handle_dynamic_content
  quiet_handle_infinite_scroll : rely.

Lemma respects_crawl_page fuel domain : respects R (crawl_page self fuel domain).
Proof.
  unfold crawl_page. apply respects_try_except; [done| |steps].
  intros s. unfold bind at 1.
  destruct (is_product_page_observed s) as [HR Hat].
  destruct (is_product_page self s) as [[product_match|e|] s1];
    simpl in *; try done.
  etrans; [exact HR|]. clear HR.
  assert (respects R
    (handle_dynamic_content self;;;
     let* all_urls := extract_urls_from_page in
     let* page_height := page scrollHeight in
     let* viewport_height := page innerHeight in
     let* all_urls :=
       if viewport_height * 2 <? page_height then
         let* scroll_urls := handle_infinite_scroll self fuel in
         ret (all_urls ∪ scroll_urls)
       else ret all_urls in
     ret (filter (fun url => is_same_domain url domain = true) all_urls)))
    as Hrest by steps.
  destruct product_match as [m|]; [destruct (Qle_bool (7 # 10) (confidence m))|].
  - unfold bind.
    pose proof (R_add domain (url m) s1 (or_intror (Hat m eq_refl))) as Hadd.
    by destruct (product_urls_add domain (url m) s1) as [[[]|e|] s2].
  - apply Hrest.
  - apply Hrest.
Qed.

Hypothesis R_sleep : forall seconds, respects R (sleep seconds).

#[local] Hint Resolve respects_crawl_page respects_crawl_with_retry : rely.

Lemma respects_crawl_domain_step fuel domain :
  respects (both (@anything frontier) R) (crawl_domain_step self fuel domain).
Proof. unfold crawl_domain_step. steps. Qed.

Lemma respects_crawl_domain_loop fuel domain :
  respects (both (@anything frontier) R) (crawl_domain_loop self fuel domain).
Proof.
  induction fuel; simpl; steps. apply respects_crawl_domain_step.
Qed.

Lemma respects_crawl_domain fuel domain :
  respects R (crawl_domain self fuel domain).
Proof.
  unfold crawl_domain. apply respects_bind; [done| |steps].
  apply (respects_with_locals anything R).
  unfold crawl_domain_body. steps. apply respects_crawl_domain_loop.
Qed.

End Observer.

(** ** Backoff waits *)

#[export] Instance no_backoff_preorder : PreOrder no_backoff.
Proof. split; [by intros s | intros s1 s2 s3; unfold no_backoff; congruence]. Qed.

Lemma backoffs_app t1 t2 : backoffs (t1 ++ t2) = backoffs t1 ++ backoffs t2.
Proof. apply omap_app. Qed.

(** An attempt makes no backoff wait of its own. *)
Lemma crawl_with_retry_try_no_backoff url :
  respects no_backoff (crawl_with_retry_try self url).
Proof.
  apply (respects_crawl_with_retry_try no_backoff).
  - by intros s s' [_ Ht]; unfold no_backoff; rewrite Ht.
  - intros u; split; intros s; unfold no_backoff; simpl;
      by rewrite backoffs_app, app_nil_r.
  - intros key u s _. unfold product_urls_add, no_backoff.
    by destruct (product_urls s !! key).
Qed.

Lemma linear_backoff_S retry_count k :
  linear_backoff self retry_count (S k) =
  retry_delay self * (retry_count + 1) ::
  linear_backoff self (retry_count + 1) k.
Proof.
  unfold linear_backoff. simpl. f_equal.
  rewrite <- fmap_S_seq, <- list_fmap_compose.
  apply list_fmap_ext. intros _ i _. simpl. f_equal. lia.
Qed.

Lemma backoffs_sleep seconds (s : @St W) :
  backoffs (trace (sleep seconds s).2) = backoffs (trace s) ++ [seconds].
Proof. simpl. by rewrite backoffs_app. Qed.

(** C4.  A fetch whose attempts raise is retried while the retry counter
    is below [max_retries], after a wait of [retry_delay * (counter + 1)]:
    when [k] attempts have failed in a row the waits made are
    [retry_delay * (retry_count + 1)], ..., [retry_delay * (retry_count + k)]
    and no other; the result of the fetch is that of the first attempt that
    does not raise; and a failure with the counter at [max_retries] is
    terminal: the fetch returns [False] without a further wait. *)
Theorem crawl_with_retry_linear_backoff url retry_count (s : @St W) k s' :
  failures self url retry_count s k s' ->
  retry_count + Z.of_nat k <= max_retries self ->
  backoffs (trace s') =
    backoffs (trace s) ++ linear_backoff self retry_count k /\
  (forall r s'',
     crawl_with_retry_try self url s' = (r, s'') ->
     (forall e, r <> Raise e) ->
     crawl_with_retry self url retry_count s = (r, s'') /\
     backoffs (trace s'') = backoffs (trace s')) /\
  (forall e s'',
     crawl_with_retry_try self url s' = (Raise e, s'') ->
     retry_count + Z.of_nat k = max_retries self ->
     crawl_with_retry self url retry_count s = (Ok false, s'') /\
     backoffs (trace s'') = backoffs (trace s')).
Proof.
  induction 1 as [retry_count s|retry_count s e s1 k s' Htry _ IH]; intros Hle.
  - split; [by rewrite app_nil_r|]. split.
    + intros r s'' Heq Hr.
      pose proof (crawl_with_retry_try_no_backoff url s) as Hquiet.
      rewrite crawl_with_retry_eq, Heq. rewrite Heq in Hquiet.
      split; [|exact Hquiet]. destruct r; by try destruct (Hr e).
    + intros e s'' Heq Hmax.
      pose proof (crawl_with_retry_try_no_backoff url s) as Hquiet.
      rewrite crawl_with_retry_eq, Heq. rewrite Heq in Hquiet.
      split; [|exact Hquiet]. case_decide; [lia|done].
  - destruct IH as (Hwaits & Hdone & Hlast); [lia|].
    pose proof (crawl_with_retry_try_no_backoff url s) as Hquiet.
    rewrite Htry in Hquiet. unfold AdvanceSpec.no_backoff in Hquiet.
    simpl in Hquiet.
    assert (crawl_with_retry self url retry_count s =
            crawl_with_retry self url (retry_count + 1)
              (sleep (retry_delay self * (retry_count + 1)) s1).2) as Hstep.
    { rewrite crawl_with_retry_eq, Htry. case_decide; [done|lia]. }
    split; [|split].
    + rewrite Hwaits, backoffs_sleep, Hquiet, linear_backoff_S.
      by rewrite <- app_assoc.
    + intros r s'' Heq Hr. rewrite Hstep. by apply Hdone.
    + intros e' s'' Heq Hmax. rewrite Hstep. apply (Hlast e'); [done|lia].
Qed.

(** ** The fast path under a key that is not configured *)

Lemma product_urls_page_goto url (s : @St W) :
  product_urls (page_goto url s).2 = product_urls s.
Proof.
  unfold page_goto, bind, page.
  by destruct (goto url (world s)) as [[[]|e|] w].
Qed.

Lemma fast_path_raises table url parsed (s : @St W) :
  Exists (fun h => re_search h.1 url = true) table ->
  urlparse url = Some parsed ->
  product_urls s !! netloc parsed = None ->
  product_urls (fast_path table url s).2 = product_urls s /\
  match (fast_path table url s).1 with
  | Ok _ => False
  | Raise e => (goto url (world s)).1 = Ok tt -> e = KeyError
  | Abort => (goto url (world s)).1 = Abort
  end.
Proof.
  intros Hmatch Hparse Hkey.
  induction table as [|[pattern confidence] table IH]; [by inversion Hmatch|].
  simpl. destruct (re_search pattern url) eqn:Hre.
  - unfold page_goto, page, observe, modify, netloc_of, product_urls_add,
      bind. cbv beta.
    destruct (goto url (world s)) as [[[]|e|] w]; cbn [fst snd]; [|done..].
    rewrite Hparse. cbn [ret product_urls netloc].
    rewrite Hkey. done.
  - apply IH. inversion Hmatch as [? ? Hhd|]; simplify_eq/=; [congruence|done].
Qed.

Lemma crawl_with_retry_try_raises url parsed (s : @St W) :
  contains "amazon" url = true ->
  Exists (fun h => re_search h.1 url = true) (amazon_product_patterns self) ->
  urlparse url = Some parsed ->
  product_urls s !! netloc parsed = None ->
  product_urls (crawl_with_retry_try self url s).2 = product_urls s /\
  match (crawl_with_retry_try self url s).1 with
  | Ok _ => False
  | Raise e => (goto url (world s)).1 = Ok tt -> e = KeyError
  | Abort => (goto url (world s)).1 = Abort
  end.
Proof.
  intros Hamazon Hmatch Hparse Hkey.
  destruct (fast_path_raises _ url parsed s Hmatch Hparse Hkey)
    as [Hsame Hres].
  unfold crawl_with_retry_try. rewrite Hamazon. unfold bind.
  by destruct (fast_path (amazon_product_patterns self) url s)
    as [[a|e|] s1]; [destruct Hres|..].
Qed.

(** The keys of [product_urls] are set by [__init__]. *)
Lemma keys_configured_start (w : W) : keys_configured self (start self w).
Proof.
  unfold keys_configured, start, initial_product_urls. simpl.
  rewrite dom_list_to_map_L, <- list_fmap_compose.
  f_equal. induction (domains self) as [|d ds IH]; [done|].
  by rewrite fmap_cons, IH.
Qed.

Lemma keys_configured_lookup (s : @St W) key :
  keys_configured self s -> key ∉ domains self ->
  product_urls s !! key = None.
Proof.
  intros Hkeys Hkey. apply (not_elem_of_dom (D := gset string)).
  rewrite Hkeys. by rewrite elem_of_list_to_set.
Qed.

(** C10.  A URL takes the fast path when it contains [amazon] and matches
    a pattern of [amazon_product_patterns].  When the keys of
    [product_urls] are the configured domains and its netloc is not one
    of them, every attempt on it fails, with [KeyError] when the
    navigation succeeds, and leaves [product_urls] as it was; the handler
    retries the attempt like a failed navigation, with the waits of the
    linear backoff up to [max_retries], and the fetch returns [False]: the
    hit is never recorded. *)
Theorem fast_path_key_error url parsed retry_count (s : @St W) :
  contains "amazon" url = true ->
  Exists (fun h => re_search h.1 url = true) (amazon_product_patterns self) ->
  urlparse url = Some parsed ->
  keys_configured self s ->
  (netloc parsed ∉ domains self) ->
  retry_count <= max_retries self ->
  (forall s0 : @St W,
     product_urls s0 = product_urls s ->
     product_urls (crawl_with_retry_try self url s0).2 = product_urls s0 /\
     match (crawl_with_retry_try self url s0).1 with
     | Ok _ => False
     | Raise e => (goto url (world s0)).1 = Ok tt -> e = KeyError
     | Abort => (goto url (world s0)).1 = Abort
     end) /\
  product_urls (crawl_with_retry self url retry_count s).2 = product_urls s /\
  ((crawl_with_retry self url retry_count s).1 = Ok false /\
   backoffs (trace (crawl_with_retry self url retry_count s).2) =
     backoffs (trace s) ++
     linear_backoff self retry_count
       (Z.to_nat (max_retries self - retry_count))
   \/ (crawl_with_retry self url retry_count s).1 = Abort).
Proof.
  intros Hamazon Hmatch Hparse Hkeys Hnot Hle.
  pose proof (keys_configured_lookup s _ Hkeys Hnot) as Hkey.
  assert (forall s0 : @St W,
     product_urls s0 = product_urls s ->
     product_urls (crawl_with_retry_try self url s0).2 = product_urls s0 /\
     match (crawl_with_retry_try self url s0).1 with
     | Ok _ => False
     | Raise e => (goto url (world s0)).1 = Ok tt -> e = KeyError
     | Abort => (goto url (world s0)).1 = Abort
     end) as Honce.
  { intros s0 Hs0. apply (crawl_with_retry_try_raises url parsed);
      try done. by rewrite Hs0. }
  split; [exact Honce|].
  assert (forall (n : nat) retry_count (s0 : @St W),
    retry_count <= max_retries self ->
    n = Z.to_nat (max_retries self - retry_count) ->
    product_urls s0 = product_urls s ->
    product_urls (crawl_with_retry self url retry_count s0).2 =
      product_urls s /\
    ((crawl_with_retry self url retry_count s0).1 = Ok false /\
     backoffs (trace (crawl_with_retry self url retry_count s0).2) =
       backoffs (trace s0) ++ linear_backoff self retry_count n
     \/ (crawl_with_retry self url retry_count s0).1 = Abort)) as Hall;
    [|by apply Hall].
  clear retry_count Hle.
  induction n as [|n IH]; intros retry_count s0 Hle Hn Hs0.
  all: destruct (Honce s0 Hs0) as [Hsame Hres].
  all: pose proof (crawl_with_retry_try_no_backoff url s0) as Hquiet.
  all: rewrite crawl_with_retry_eq.
  all: destruct (crawl_with_retry_try self url s0) as [[a|e|] s1];
    simpl in *; [done| |split; [congruence|by right]].
  - case_decide; [lia|]. simpl. split; [congruence|]. left.
    split; [done|]. by rewrite app_nil_r.
  - case_decide; [|lia].
    destruct (IH (retry_count + 1)
                (sleep (retry_delay self * (retry_count + 1)) s1).2)
      as [Hp Hr]; [lia|lia|simpl; congruence|].
    split; [done|].
    destruct Hr as [[Hfalse Hwaits]|Habort]; [left|by right].
    split; [done|]. simpl in Hwaits.
    rewrite Hwaits, backoffs_app, Hquiet, linear_backoff_S.
    by rewrite <- app_assoc.
Qed.

End Gate.
End AccessGate.

(* ===================================================================== *)
(** * Proofs: the frontier and the result store of advance.py *)
(* ===================================================================== *)

Module Frontier.
Import Advance Rely RelyRules AdvanceSpec AccessGate SetFacts.

Section Proofs.
Context `{Lib} {W : Type} `{Playwright W}.
Variable self : EcommerceCrawler.

(** ** Recorded products were fetched *)




(** ** The bound on the visited set *)

#[export] Instance grows_filtered_preorder domain :
  PreOrder (grows_filtered self domain).
Proof.
  split.
  - intros l. split; [done|]. by left.
  - intros l1 l2 l3 [Hv12 Hu12] [Hv23 Hu23]. split; [congruence|].
    intros u Hu. destruct (Hu23 u Hu) as [Hu2|]; [|by right]. by apply Hu12.
Qed.

(** What follows the insertion into [visited_urls] in a pass of the loop
    leaves the set as it is, and adds to [urls_to_visit] only URLs that
    pass [should_crawl_url]. *)
Lemma crawl_domain_step_tail fuel domain url :
  respects (both (grows_filtered self domain) (@anything (@St W)))
    (let* ok := zoom (crawl_with_retry self url 0) in
     if (ok : bool) then
       let* new_urls := zoom (crawl_page self fuel domain) in
       set_locals (fun l =>
         {| visited_urls := visited_urls l;
            urls_to_visit :=
              urls_to_visit l ∪
              filter (fun url =>
                        (url ∉ visited_urls l) ∧ (url ∉ urls_to_visit l) ∧
                        should_crawl_url self url domain = true) new_urls |})
     else ret tt).
Proof.
  steps. split; [done|]. simpl.
  intros u [Hu|Hu]%elem_of_union; [by left|right].
  apply elem_of_filter in Hu. tauto.
Qed.

Lemma set_pop_spec (X rest : gset string) (x : string) :
  set_pop X = Some (x, rest) -> x ∈ X /\ rest = X ∖ {[x]}.
Proof.
  unfold set_pop.
  destruct (elements X !! _) as [y|] eqn:Hy; intros [= <- <-].
  split; [|done]. by eapply elem_of_elements, list_elem_of_lookup_2.
Qed.




(** ** What the frontier lets in *)

Lemma frontier_filtered_step fuel domain entry (l : frontier) (s : @St W) :
  frontier_filtered self domain entry l ->
  frontier_filtered self domain entry
    (crawl_domain_step self fuel domain (l, s)).2.1.
Proof.
  intros Hl. unfold crawl_domain_step. unfold bind at 1. simpl.
  destruct (set_pop (urls_to_visit l)) as [[url rest]|] eqn:Hpop; simpl;
    [|done].
  apply set_pop_spec in Hpop as [Hurl ->].
  unfold bind at 1. simpl. case_decide; simpl.
  { intros u [Hu|Hu%elem_of_difference]; apply Hl; tauto. }
  unfold bind at 1. simpl.
  match goal with
  | |- context [(?m (?l1, s)).2.1] =>
      pose proof (crawl_domain_step_tail fuel domain url (l1, s))
        as [[Hsame Hnew] _];
      destruct (m (l1, s)) as [r [l2 s2]]
  end.
  simpl in *. intros u [Hu|Hu].
  - rewrite Hsame in Hu.
    apply elem_of_union in Hu as [Hu| ->%elem_of_singleton]; apply Hl; tauto.
  - destruct (Hnew u Hu) as [Hu'%elem_of_difference|]; [|by right].
    apply Hl. tauto.
Qed.

Lemma frontier_filtered_loop fuel domain entry (l : frontier) (s : @St W) :
  frontier_filtered self domain entry l ->
  frontier_filtered self domain entry
    (crawl_domain_loop self fuel domain (l, s)).2.1.
Proof.
  revert l s. induction fuel as [|fuel IH]; intros l s Hl; simpl.
  all: unfold bind at 1; simpl.
  all: destruct (negb _ && _); simpl; try done.
  unfold bind.
  pose proof (frontier_filtered_step fuel domain entry l s Hl) as Hstep.
  destruct (crawl_domain_step self fuel domain (l, s)) as [[[]|e|] [l1 s1]];
    simpl in *; try done.
  by apply IH.
Qed.

(** In advance.py the URLs that [crawl_domain] visits are the home page,
    the links found on the home page, and URLs that pass
    [should_crawl_url]. *)
Lemma crawl_domain_visits fuel domain (s s2 : @St W) homepage_urls u :
  extract_urls_from_page
    (crawl_with_retry self ("https://www." +:+ domain) 0 s).2
    = (Ok homepage_urls, s2) ->
  u ∈ visited_urls (crawl_domain_body self fuel domain (empty_frontier, s)).2.1 ->
  u = "https://www." +:+ domain \/ u ∈ homepage_urls \/
  should_crawl_url self u domain = true.
Proof.
  intros Hextract.
  unfold crawl_domain_body, try_except. unfold bind at 1, zoom at 1.
  destruct (crawl_with_retry self _ 0 s) as [[[]|e|] s1]; simpl in *;
    try (intros Hu; by apply not_elem_of_empty in Hu).
  unfold bind at 1, zoom at 1. rewrite Hextract. simpl.
  unfold bind. simpl.
  match goal with
  | |- context [crawl_domain_loop self fuel domain (?l1, s2)] =>
      pose proof (frontier_filtered_loop fuel domain
                    ({["https://www." +:+ domain]} ∪ homepage_urls) l1 s2)
        as Hloop
  end.
  intros Hu.
  assert (u ∈ {["https://www." +:+ domain]} ∪ homepage_urls \/
          should_crawl_url self u domain = true) as [Hentry|]; [| |tauto].
  - apply Hloop.
    + simpl. intros x [Hx|Hx]; left.
      * apply elem_of_union in Hx as [Hx|Hx]; [by apply not_elem_of_empty in Hx|].
        apply elem_of_union. by left.
      * apply elem_of_difference in Hx as [Hx _]. apply elem_of_union. by right.
    + left.
      by destruct (crawl_domain_loop self fuel domain _) as [[[]|e|] [l2 s3]].
  - apply elem_of_union in Hentry as [->%elem_of_singleton|]; tauto.
Qed.

(** ** The keys of the result store *)

#[export] Instance same_keys_preorder : PreOrder (@same_keys W).
Proof.
  split; [by intros s | intros s1 s2 s3; unfold same_keys; congruence].
Qed.

Lemma same_keys_crawl_domain fuel domain (s : @St W) :
  dom (product_urls (crawl_domain self fuel domain s).2) = dom (product_urls s).
Proof.
  apply (respects_crawl_domain self same_keys).
  - by intros s1 s2 [Hp _]; unfold same_keys; rewrite Hp.
  - by intros u; split; intros s1.
  - intros key u s1 _. unfold product_urls_add, same_keys.
    destruct (product_urls s1 !! key) as [old|] eqn:Hold; simpl; [|done].
    rewrite dom_insert_L. apply (elem_of_dom_2 (D := gset string)) in Hold.
    apply set_eq. intros x. rewrite elem_of_union, elem_of_singleton.
    split; [intros [->|]; done | by right].
  - by intros seconds s1.
Qed.

(** ** The CAPTCHA gate *)

(** When every wait for a selector ends with an element or by its
    timeout, [handle_amazon_captcha] returns [True] or is cancelled: the
    timeout of the wait for the navigation bar is not told apart from the
    timeout of the wait for the CAPTCHA form. *)
Lemma await_captcha_timeouts selectors (s : @St W) :
  waits_time_out ->
  (await_captcha selectors s).1 = Ok true \/
  (await_captcha selectors s).1 = Abort.
Proof.
  intros Hwaits. revert s.
  induction selectors as [|selector selectors IH]; intros s; [by left|].
  simpl. unfold bind, try_except_timeout, page.
  pose proof (Hwaits selector 5000 (world s)) as Hdetect.
  destruct (wait_for_selector selector 5000 (world s)) as [[[]|[]|] w];
    simpl in *; try done; try apply IH; try (by right).
  match goal with
  | |- context [wait_for_selector ?sel ?t ?w'] =>
      pose proof (Hwaits sel t w') as Hsolve;
      destruct (wait_for_selector sel t w') as [[[]|[]|] w2]
  end; simpl in *; try done; try apply IH; try (by left); by right.
Qed.

Lemma handle_amazon_captcha_timeouts (s : @St W) :
  waits_time_out ->
  (handle_amazon_captcha s).1 = Ok true \/ (handle_amazon_captcha s).1 = Abort.
Proof.
  intros Hwaits. unfold handle_amazon_captcha, try_except.
  match goal with
  | |- context [await_captcha ?sels s] =>
      destruct (await_captcha_timeouts sels s Hwaits) as [Hr|Hr];
      destruct (await_captcha sels s) as [[[]|e|] s1]
  end; simpl in *; try done; [by left|by right].
Qed.

(** ** The scroll loop *)

(** A pass of the loop after which the loop goes on has scrolled once: it
    has kept the links it had, and it has reset [scroll_attempts] when the
    scroll brought new links and added two to it otherwise. *)
Lemma scroll_step_counter start_time (l : scroll_frame) (s : @St W) :
  (scroll_step self start_time (l, s)).1 = Ok true ->
  let l' := (scroll_step self start_time (l, s)).2.1 in
  all_urls l ⊆ all_urls l' /\
  (all_urls l' = all_urls l -> scroll_attempts l' = scroll_attempts l + 2) /\
  (all_urls l' <> all_urls l -> scroll_attempts l' = 0).
Proof.
  unfold scroll_step, bind, zoom, locals, set_locals. simpl.
  repeat (match goal with
          | |- context [match ?x with _ => _ end] =>
              lazymatch x with
              | context [match _ with _ => _ end] => fail
              | _ => destruct x eqn:?
              end
          end; simpl; try done).
  all: intros _; split; [apply union_subseteq_l|].
  all: match goal with
       | H : (Z.of_nat (size _) =? 0) = true |- _ =>
           apply Z.eqb_eq, no_gain in H
       | H : (Z.of_nat (size _) =? 0) = false |- _ =>
           apply Z.eqb_neq in H; rewrite no_gain in H
       end.
  all: split; [intros; first [lia | done] | intros; first [lia | done]].
Qed.

(** A pass that finds the height of the page equal to [prev_height], and
    still so after looking for a load-more control, ends the loop without
    scrolling, whatever [scroll_attempts] is. *)
Lemma scroll_step_stable start_time (l : scroll_frame) (s s1 s2 s3 : @St W) h :
  page scrollHeight s = (Ok h, s1) ->
  h = prev_height l ->
  click_load_more self (load_more_patterns self) s1 = (Ok tt, s2) ->
  page scrollHeight s2 = (Ok h, s3) ->
  scroll_step self start_time (l, s) = (Ok false, (l, s3)).
Proof.
  intros Hh -> Hclick Hh'.
  unfold scroll_step, bind, zoom, locals. simpl.
  rewrite Hh. simpl. rewrite Z.eqb_refl. rewrite Hclick. simpl.
  rewrite Hh'. simpl. by rewrite Z.eqb_refl.
Qed.

(** ** [save_results] *)




End Proofs.
End Frontier.

(* ===================================================================== *)
(** * Proofs: version2.py *)
(* ===================================================================== *)

Module Version2Proofs.
Import Version2 Rely RelyRules Version2Spec SetFacts.

Section Proofs.
Context `{Lib} {V : Type} `{Web V}.
Variable self : DomainCrawler.

Lemma crawl_invariant_initial : crawl_invariant self initial_attrs.
Proof.
  split; [|split].
  - unfold product_bound, initial_attrs. cbn [product_urls].
    rewrite size_empty. lia.
  - intros u Hu. by apply not_elem_of_empty in Hu.
  - intros u Hu. by apply not_elem_of_empty in Hu.
Qed.

(** The first stretch of [crawl_url] lets a URL in only past the
    exclusion patterns and the depth limit. *)
Lemma crawl_invariant_enter url (a : attrs) :
  crawl_invariant self a ->
  crawl_invariant self (crawl_url_enter self url a).2.
Proof.
  intros (Hbound & Hvisited & Hproducts).
  unfold crawl_url_enter, bind, get. simpl.
  destruct (bool_decide (url ∈ visited_urls a) || should_exclude_url self url)
    eqn:Hskip; simpl; [done|].
  apply orb_false_elim in Hskip as [_ Hexcluded].
  destruct (max_urls self <=? Z.of_nat (size (product_urls a))); simpl; [done|].
  destruct (get_url_depth url) as [depth|] eqn:Hdepth; simpl; [|done].
  destruct (max_depth self <? depth) eqn:Hdeep; simpl; [done|].
  apply Z.ltb_ge in Hdeep.
  split; [done|]. split; [|done].
  intros u [Hu| ->%elem_of_singleton]%elem_of_union; [by apply Hvisited|].
  split; [done|]. by exists depth.
Qed.

(** The scan of the links of a page records a product URL only below
    the limit, and only when it matches a product pattern on the netloc of
    the entry point. *)
Lemma crawl_invariant_scan_links links gathered :
  respects (both (keeps (crawl_invariant self)) (@anything V))
           (scan_links self links gathered).
Proof.
  revert gathered.
  induction links as [|link links IH]; intros gathered [a v]; [by split|].
  split; [|done]. intros Hinv. simpl.
  unfold bind at 1. simpl.
  destruct (max_urls self <=? Z.of_nat (size (product_urls a))) eqn:Hfull;
    simpl; [done|].
  apply Z.leb_gt in Hfull.
  unfold bind at 1.
  destruct (urljoin (domain self) link) as [absolute_url|]; simpl; [|done].
  unfold bind at 1.
  destruct (urlparse absolute_url) as [parsed|] eqn:Hparsed; simpl; [|done].
  unfold bind at 1.
  destruct (urlparse (domain self)) as [parsed_domain|] eqn:Hdomain;
    simpl; [|done].
  destruct (String.eqb_spec (netloc parsed) (netloc parsed_domain)) as [Hnet|];
    [|by apply IH].
  destruct (is_product_url self absolute_url) eqn:Hproduct.
  - unfold bind. simpl.
    match goal with
    | |- context [scan_links self links gathered (?a1, v)] =>
        pose proof (IH gathered (a1, v)) as [Hkeep _];
        destruct (scan_links self links gathered (a1, v)) as [[?|?|] [a2 v2]]
    end.
    all: simpl in *; apply Hkeep.
    all: destruct Hinv as (Hbound & Hvisited & Hproducts).
    all: split; [|split; [done|]].
    all: try (unfold product_bound in *; simpl;
              pose proof (size_union_singleton (product_urls a) absolute_url);
              lia).
    all: intros u [Hu| ->%elem_of_singleton]%elem_of_union;
      [by apply Hproducts|].
    all: split; [done|]; by exists parsed, parsed_domain.
  - destruct (bool_decide (absolute_url ∉ visited_urls a)); by apply IH.
Qed.

#[local] Hint Resolve crawl_invariant_scan_links : rely.

Lemma crawl_invariant_resume url :
  respects (both (keeps (crawl_invariant self)) (@anything V))
           (crawl_url_resume self url).
Proof. unfold crawl_url_resume. steps. Qed.

Lemma crawl_invariant_step i (p : @loop V) :
  crawl_invariant self (crawler p) ->
  crawl_invariant self (crawler (step self i p)).
Proof.
  intros Hinv. unfold step.
  destruct (tasks p !! i) as [[url hops|url hops]|]; [| |done].
  - pose proof (crawl_invariant_enter url (crawler p) Hinv) as Henter.
    by destruct (crawl_url_enter self url (crawler p)) as [[[]|e|] a].
  - pose proof (crawl_invariant_resume url (crawler p, outside p))
      as [Hresume _]. specialize (Hresume Hinv).
    by destruct (crawl_url_resume self url (crawler p, outside p))
      as [[gathered|e|] [a v]].
Qed.

Lemma crawl_invariant_run schedule (p : @loop V) :
  crawl_invariant self (crawler p) ->
  crawl_invariant self (crawler (run self schedule p)).
Proof.
  revert p. induction schedule as [|i schedule IH]; intros p Hinv; [done|].
  simpl. apply IH. by apply crawl_invariant_step.
Qed.

(** At every point of a crawl the invariant holds. *)
Lemma crawl_invariant_reachable schedule (v : V) :
  crawl_invariant self (crawler (run self schedule (start self v))).
Proof. apply crawl_invariant_run, crawl_invariant_initial. Qed.

End Proofs.

(** ** [ParallelCrawler] *)

Section Parallel.
Context `{Lib} {V : Type} `{Web V}.
Variable self : ParallelCrawler.



End Parallel.
End Version2Proofs.

(* ===================================================================== *)
(** * The claims *)
(* ===================================================================== *)

Module Claims.
Import Rely AdvanceSpec Version2Spec Scenarios PyModel.

(** A decidable proposition on closed terms, by evaluation. *)
Ltac decide_by_computation :=
  lazymatch goal with
  | |- ?P => apply (bool_decide_unpack P); vm_compute; exact I
  end.

(** ** C1 *)


(** The scenario of the specification: [/dp/] alone matches, with weight
    0.95. *)
Example dp_page_is_product :
  (Advance.is_product_page shop at_product_page).1 =
  Ok (Some {| Advance.url := "https://shop.example/dp/B000123";
              Advance.confidence := 95 # 100;
              Advance.matched_patterns := ["URL pattern: /dp/"] |}).
Proof. vm_compute. reflexivity. Qed.


(** ** C2 *)



(** ** C3 *)

(** C3, against the claim.  The catalog is five viewports high, gains
    twelve links on the first scroll and none afterwards.  The controller
    scrolls twice, not three times: it stops after the first scroll without
    gain, and returns the twelve links with the one of the initial
    extraction. *)
Lemma scroll_stops_after_first_stall :
  2 * viewport settled_catalog < height settled_catalog catalog_url 0 /\
  length (catalog_links catalog_url 1) =
    (length (catalog_links catalog_url 0) + 12)%nat /\
  (forall n, catalog_links catalog_url (S n) = catalog_links catalog_url 1) /\
  (Advance.handle_infinite_scroll shop 20 (at_catalog settled_catalog)).1 =
    Ok (list_to_set (initial_links ++ scrolled_links)) /\
  scrolls (Advance.world
    (Advance.handle_infinite_scroll shop 20 (at_catalog settled_catalog)).2)
    = 2%nat /\
  scrolls (Advance.world
    (Advance.handle_infinite_scroll shop 20 (at_catalog settled_catalog)).2)
    <> 3%nat.
Proof.
  split; [done|]. split; [done|]. split; [done|].
  split; [vm_compute; reflexivity|].
  split; [vm_compute; reflexivity|].
  vm_compute. intros [=].
Qed.

(** C3, as amended.  A scroll that brings new links resets
    [scroll_attempts] to zero, and one that brings none adds two to it.
    Whatever the counter, the loop ends before scrolling when it finds the
    height of the page as it was before the previous scroll, and a
    load-more click leaves it so.  On the catalog, whose height settles
    after the first scroll, the controller stops after the first scroll
    without gain when [max_scroll_attempts] is 10; where the height keeps
    changing it goes on for five scrolls without gain.  It returns the
    twelve links and the one of the initial extraction. *)
Theorem scroll_controller :
  (forall (L : Lib) (W : Type) (page : Advance.Playwright W)
          (self : Advance.EcommerceCrawler) (start_time : Z)
          (l : Advance.scroll_frame) (s : @Advance.St W),
     (Advance.scroll_step self start_time (l, s)).1 = Ok true ->
     let l' := (Advance.scroll_step self start_time (l, s)).2.1 in
     Advance.all_urls l ⊆ Advance.all_urls l' /\
     (Advance.all_urls l' = Advance.all_urls l ->
      Advance.scroll_attempts l' = Advance.scroll_attempts l + 2) /\
     (Advance.all_urls l' <> Advance.all_urls l ->
      Advance.scroll_attempts l' = 0)) /\
  (forall (L : Lib) (W : Type) (page : Advance.Playwright W)
          (self : Advance.EcommerceCrawler) (start_time : Z)
          (l : Advance.scroll_frame) (s s1 s2 s3 : @Advance.St W) (h : Z),
     Advance.page Advance.scrollHeight s = (Ok h, s1) ->
     h = Advance.prev_height l ->
     Advance.click_load_more self (Advance.load_more_patterns self) s1
       = (Ok tt, s2) ->
     Advance.page Advance.scrollHeight s2 = (Ok h, s3) ->
     Advance.scroll_step self start_time (l, s) = (Ok false, (l, s3))) /\
  ((Advance.handle_infinite_scroll shop 20 (at_catalog settled_catalog)).1 =
     Ok (list_to_set (initial_links ++ scrolled_links)) /\
   scrolls (Advance.world
     (Advance.handle_infinite_scroll shop 20 (at_catalog settled_catalog)).2)
     = 2%nat) /\
  ((Advance.handle_infinite_scroll shop 20 (at_catalog restless_catalog)).1 =
     Ok (list_to_set (initial_links ++ scrolled_links)) /\
   scrolls (Advance.world
     (Advance.handle_infinite_scroll shop 20 (at_catalog restless_catalog)).2)
     = 6%nat).
Proof.
  split; [|split; [|split]].
  - intros L W page self start_time l s. apply Frontier.scroll_step_counter.
  - intros L W page self start_time l s s1 s2 s3 h.
    apply Frontier.scroll_step_stable.
  - split; vm_compute; reflexivity.
  - split; vm_compute; reflexivity.
Qed.

Lemma scroll_controller_witness :
  (Advance.scroll_attempts
     (Advance.scroll_step shop 0 (fresh_frame, at_catalog settled_catalog)).2.1
   = 0) /\
  (exists s3,
     Advance.scroll_step shop 0
       (frame_after_two_scrolls, settled_after_two_scrolls)
     = (Ok false, (frame_after_two_scrolls, s3))).
Proof.
  destruct scroll_controller as (Hcounter & Hstable & _).
  split.
  - apply (Hcounter lib browser playwright shop 0 fresh_frame
             (at_catalog settled_catalog)); [vm_compute; reflexivity|].
    intros Heq. apply (f_equal size) in Heq. vm_compute in Heq.
    discriminate Heq.
  - eexists.
    eapply (Hstable lib browser playwright shop 0 frame_after_two_scrolls
              settled_after_two_scrolls _ _ _ 6000); reflexivity.
Defined.

(** ** C4 *)

(** The scenario of the specification: the fetch fails twice and succeeds
    at the third attempt, after waits of [retry_delay * 1] and
    [retry_delay * 2]. *)
Lemma crawl_with_retry_linear_backoff_witness :
  failures shop catalog_url 0 flaky_start 2 (flaky_attempt 2) /\
  backoffs (Advance.trace (flaky_attempt 2)) =
    [Advance.retry_delay shop * 1; Advance.retry_delay shop * 2] /\
  (Advance.crawl_with_retry shop catalog_url 0 flaky_start).1 = Ok true /\
  backoffs (Advance.trace
    (Advance.crawl_with_retry shop catalog_url 0 flaky_start).2) =
    [Advance.retry_delay shop * 1; Advance.retry_delay shop * 2].
Proof.
  assert (failures shop catalog_url 0 flaky_start 2 (flaky_attempt 2))
    as Hfail.
  { apply (failures_more shop catalog_url 0 (flaky_attempt 0) TimeoutError
             (Advance.crawl_with_retry_try shop catalog_url
                (flaky_attempt 0)).2 1); [vm_compute; reflexivity|].
    apply (failures_more shop catalog_url (0 + 1) (flaky_attempt 1)
             TimeoutError
             (Advance.crawl_with_retry_try shop catalog_url
                (flaky_attempt 1)).2 0); [vm_compute; reflexivity|].
    apply (failures_none shop catalog_url (0 + 1 + 1) (flaky_attempt 2)). }
  destruct (AccessGate.crawl_with_retry_linear_backoff shop catalog_url 0
              flaky_start 2 (flaky_attempt 2) Hfail)
    as (Hwaits & Hdone & _); [vm_compute; intros [=]|].
  split; [exact Hfail|]. split; [vm_compute; reflexivity|].
  destruct (Hdone (Advance.crawl_with_retry_try shop catalog_url
                     (flaky_attempt 2)).1
                  (Advance.crawl_with_retry_try shop catalog_url
                     (flaky_attempt 2)).2) as [Hresult Hquiet].
  { apply surjective_pairing. }
  { vm_compute. intros e [=]. }
  split; [vm_compute; reflexivity|]. vm_compute. reflexivity.
Defined.

(** ** C5 *)

(** The waits of the scripted browser end with an element or by their
    timeout, so that [handle_amazon_captcha_timeouts] applies
    to every site it serves. *)
Lemma browser_waits_time_out : waits_time_out (W := browser).
Proof.
  intros selector timeout b. simpl. by destruct (appears _ _ _ _).
Qed.

(** C5, where the code departs from the claim.  The CAPTCHA form is
    detected and the navigation bar does not come before the ceiling of
    the wait.  The timeout of that wait is caught by the handler of the
    detection wait: [handle_amazon_captcha] goes on to the next selector
    and returns [True], and the fetch is reported as a success, after more
    than 300 seconds and without a backoff wait. *)
Theorem captcha_timeout_reported_as_success :
  (Advance.is_captcha_present
     (Advance.start shop (browser_at captcha_site catalog_url))).1 = Ok true /\
  appears captcha_site catalog_url "#nav-main, #navbar" 300000 = false /\
  (Advance.handle_amazon_captcha
     (Advance.start shop (browser_at captcha_site catalog_url))).1 = Ok true /\
  captcha_fetch.1 = Ok true /\
  backoffs (Advance.trace captcha_fetch.2) = [] /\
  300 * 1000000 <= clock (Advance.world captcha_fetch.2).
Proof.
  repeat split; try (vm_compute; reflexivity). vm_compute. intros [=].
Qed.

(** ** C6 *)

(** In version2.py a URL that matches an exclusion pattern never enters
    the visited set. *)
Lemma excluded_never_visited `{Lib} {V : Type} `{Version2.Web V}
    (self : Version2.DomainCrawler) (schedule : list nat) (v : V) (u : string) :
  Version2.should_exclude_url self u = true ->
  u ∉ Version2.visited_urls
        (Version2.crawler (Version2.run self schedule (Version2.start self v))).
Proof.
  intros Hexcluded Hvisited.
  destruct (Version2Proofs.crawl_invariant_reachable self schedule v)
    as (_ & Hallowed & _).
  apply Hallowed in Hvisited as [Hnot _]. congruence.
Qed.

(** C6, where the code departs from the claim.  In advance.py the links
    of the home page enter the frontier without passing
    [should_crawl_url], which the links of every later page pass: the
    about-us page, which the rules exclude, is visited. *)
Theorem excluded_homepage_link_visited :
  Advance.should_crawl_url shop about_us "shop.example" = false /\
  about_us ∈ Advance.visited_urls shop_crawl_end.2.1 /\
  In (Advance.Goto about_us) (Advance.trace shop_crawl_end.2.2).
Proof.
  split; [vm_compute; reflexivity|]. split.
  - decide_by_computation.
  - vm_compute. tauto.
Qed.

(** ** C7 *)



(** ** C8 *)

(** C8, against the claim.  [get_url_depth] counts the segments of the
    path, not the links followed from the entry point: with
    [max_depth = 1] the page [/c], three links away from the entry point,
    is visited. *)
Lemma visited_beyond_max_depth :
  Version2.max_depth (shop_crawler 10 1) = 1 /\
  ("https://shop.example/c"
     ∈ Version2.visited_urls (Version2.crawler shop_crawl)) /\
  Version2.discovered shop_crawl !! "https://shop.example/c" = Some 3%nat /\
  ~ (Z.of_nat 3 <= Version2.max_depth (shop_crawler 10 1)).
Proof.
  split; [vm_compute; reflexivity|]. split; [|split].
  - decide_by_computation.
  - vm_compute. reflexivity.
  - vm_compute. intros Hle. by apply Hle.
Qed.

(** C8, as amended.  Every visited URL has at most [max_depth] path
    segments, which is what [get_url_depth] counts: [crawl_url] lets in no
    URL with more. *)
Theorem visited_path_depth_bound (L : Lib) (V : Type) (web : Version2.Web V)
    (self : Version2.DomainCrawler) (schedule : list nat) (v : V) (u : string) :
  u ∈ Version2.visited_urls
        (Version2.crawler (Version2.run self schedule (Version2.start self v))) ->
  exists depth,
    Version2.get_url_depth u = Some depth /\ depth <= Version2.max_depth self.
Proof.
  intros Hvisited.
  destruct (Version2Proofs.crawl_invariant_reachable self schedule v)
    as (_ & Hallowed & _).
  by apply Hallowed in Hvisited as [_ Hdepth].
Qed.

Lemma visited_path_depth_bound_witness :
  "https://shop.example/c"
    ∈ Version2.visited_urls
        (Version2.crawler
           (Version2.run (shop_crawler 10 1) (oldest_first 12)
              (Version2.start (shop_crawler 10 1) (static_web shop_pages)))) /\
  exists depth,
    Version2.get_url_depth "https://shop.example/c" = Some depth /\
    depth <= Version2.max_depth (shop_crawler 10 1).
Proof.
  assert ("https://shop.example/c"
            ∈ Version2.visited_urls
                (Version2.crawler
                   (Version2.run (shop_crawler 10 1) (oldest_first 12)
                      (Version2.start (shop_crawler 10 1)
                         (static_web shop_pages))))) as Hvisited.
  { decide_by_computation. }
  split; [exact Hvisited|].
  exact (visited_path_depth_bound lib web selenium_web (shop_crawler 10 1)
           (oldest_first 12) (static_web shop_pages)
           "https://shop.example/c" Hvisited).
Defined.

(** ** C9 *)




(** ** C10 *)

(** The crawler is configured for [amazon.in]; the product URL has the
    netloc [www.amazon.in].  The fetch navigates four times, waits 5, 10
    and 15 seconds in between, returns [False] and records nothing. *)
Lemma fast_path_key_error_witness :
  urlparse amazon_product_url
    = Some {| netloc := "www.amazon.in"; path := "/dp/B000123456" |} /\
  keys_configured amazon amazon_start /\
  ("www.amazon.in" ∉ Advance.domains amazon) /\
  (Advance.crawl_with_retry_try amazon amazon_product_url amazon_start).1
    = Raise KeyError /\
  (Advance.crawl_with_retry amazon amazon_product_url 0 amazon_start).1
    = Ok false /\
  Advance.product_urls
    (Advance.crawl_with_retry amazon amazon_product_url 0 amazon_start).2
    = Advance.product_urls amazon_start /\
  backoffs (Advance.trace
    (Advance.crawl_with_retry amazon amazon_product_url 0 amazon_start).2)
    = [5; 10; 15].
Proof.
  assert (contains "amazon" amazon_product_url = true) as Hamazon
    by (vm_compute; reflexivity).
  assert (Exists (fun h => re_search h.1 amazon_product_url = true)
                 (Advance.amazon_product_patterns amazon)) as Hmatch
    by decide_by_computation.
  assert (urlparse amazon_product_url
            = Some {| netloc := "www.amazon.in"; path := "/dp/B000123456" |})
    as Hparse by (vm_compute; reflexivity).
  assert (keys_configured amazon amazon_start) as Hkeys
    by (vm_compute; reflexivity).
  assert (netloc {| netloc := "www.amazon.in"; path := "/dp/B000123456" |}
            ∉ Advance.domains amazon) as Hnot
    by decide_by_computation.
  assert (0 <= Advance.max_retries amazon) as Hle
    by (vm_compute; intros [=]).
  pose proof (AccessGate.fast_path_key_error amazon amazon_product_url
                {| netloc := "www.amazon.in"; path := "/dp/B000123456" |}
                0 amazon_start Hamazon Hmatch Hparse Hkeys Hnot Hle)
    as (Honce & Hsame & Hresult).
  split; [exact Hparse|]. split; [exact Hkeys|]. split; [exact Hnot|].
  split; [vm_compute; reflexivity|].
  split; [vm_compute; reflexivity|].
  split; [exact Hsame|]. vm_compute. reflexivity.
Defined.

End Claims.
(* ===================================================================== *)
(** * Proofs: rules for [ensures] *)
(* ===================================================================== *)

Module EnsuresRules.
Import Rely RelyRules Ensures.

Section Rules.
Context {S : Type}.

Lemma ensures_ret {A} (a : A) (Q : A -> Prop) : Q a -> ensures (@ret S A a) Q.
Proof. by intros HQ s a' s' [= <- _]. Qed.

Lemma ensures_bind {A B} (m : M S A) (k : A -> M S B) (P : A -> Prop)
    (Q : B -> Prop) :
  ensures m P -> (forall a, P a -> ensures (k a) Q) -> ensures (bind m k) Q.
Proof.
  intros Hm Hk s b s'. unfold bind.
  destruct (m s) as [[a|e|] s1] eqn:Hms; try done.
  apply (Hk a); by eapply Hm.
Qed.

Lemma ensures_true {A} (m : M S A) : ensures m (fun _ => True).
Proof. by intros s a s' _. Qed.

Lemma ensures_try_except {A} (m : M S A) h (Q : A -> Prop) :
  ensures m Q -> (forall e, ensures (h e) Q) -> ensures (try_except m h) Q.
Proof.
  intros Hm Hh s a s'. unfold try_except.
  destruct (m s) as [[a'|e|] s1] eqn:Hms; try done.
  - intros [= <- <-]. by eapply Hm.
  - apply Hh.
Qed.

Lemma never_raises_try_except {A} (m : M S A) h :
  (forall e, never_raises (h e)) -> never_raises (try_except m h).
Proof.
  intros Hh s e. unfold try_except.
  destruct (m s) as [[a|e'|] s1]; try done. apply Hh.
Qed.

Lemma never_raises_ret {A} (a : A) : never_raises (@ret S A a).
Proof. by intros s e. Qed.

(** A rule for [respects] that remembers what the first computation
    returned. *)
Lemma respects_bind_ensures (R : relation S) `{!PreOrder R} {A B}
    (m : M S A) (k : A -> M S B) (P : A -> Prop) :
  ensures m P -> respects R m -> (forall a, P a -> respects R (k a)) ->
  respects R (bind m k).
Proof.
  intros HP Hm Hk s. unfold bind. specialize (Hm s).
  destruct (m s) as [[a|e|] s'] eqn:Hms; simpl in *; try done.
  etrans; [exact Hm | apply Hk]. by eapply HP.
Qed.

End Rules.

Lemma ensures_zoom {L S A} (m : M S A) (Q : A -> Prop) :
  ensures m Q -> ensures (@zoom L S A m) Q.
Proof.
  intros Hm [l s] a [l' s']. unfold zoom.
  destruct (m s) as [r s1] eqn:Hms. intros [= -> _ _]. by eapply Hm.
Qed.

(** The frame that [with_locals] returns satisfies what the computation
    keeps. *)
Lemma ensures_with_locals {L S A} (P : L -> Prop) (RS : relation S)
    (l : L) (m : M (L * S) A) :
  respects (both (keeps P) RS) m -> P l ->
  ensures (with_locals l m) (fun r => P r.2).
Proof.
  intros Hm Hl s [a l'] s'. unfold with_locals.
  destruct (Hm (l, s)) as [Hkeep _].
  destruct (m (l, s)) as [[a'|e|] [l1 s1]]; try done.
  intros [= <- <- <-]. by apply Hkeep.
Qed.

End EnsuresRules.

(* ===================================================================== *)
(** * Proofs: advance.py, links and records *)
(* ===================================================================== *)

Module Links.
Import Advance Rely RelyRules AdvanceSpec AccessGate Ensures EnsuresRules
  LinkSpec.

(** ** Substrings *)

Lemma prefix_append (p s : string) :
  String.prefix p s = true <-> exists post, s = p +:+ post.
Proof.
  revert s. induction p as [|c p IH]; intros [|c' s]; simpl.
  - split; [by exists EmptyString | done].
  - split; [by exists (String c' s) | done].
  - split; [done | by intros [post [=]]].
  - destruct (ascii_dec c c') as [<-|Hne].
    + rewrite IH. split; intros [post Hpost]; exists post.
      * simpl. by rewrite Hpost.
      * simpl in Hpost. by injection Hpost.
    + split; [done | intros [post [=]]; congruence].
Qed.

(** [sub in s] holds exactly when [s] is [sub] between two strings. *)
Lemma contains_append (sub s : string) :
  contains sub s = true <-> exists pre post, s = pre +:+ sub +:+ post.
Proof.
  induction s as [|c s IH]; cbn [contains].
  - rewrite orb_false_r, prefix_append. split.
    + intros [post Hpost]. by exists EmptyString, post.
    + intros [[|c pre] [post Hpost]]; [by exists post | done].
  - rewrite orb_true_iff, prefix_append, IH. split.
    + intros [[post Hpost]|(pre & post & Hpost)].
      * by exists EmptyString, post.
      * exists (String c pre), post. simpl. by rewrite Hpost.
    + intros [[|c' pre] [post Hpost]]; [left; by exists post|right].
      simpl in Hpost. injection Hpost as <- Hpost. by exists pre, post.
Qed.

Section Proofs.
Context `{Lib} {W : Type} `{Playwright W}.
Variable self : EcommerceCrawler.

#[local] Abbreviation quiet := (@quiet W).

(** ** [is_same_domain] *)

(** X1.  [is_same_domain] tests whether the domain occurs in the netloc
    of the URL, at any place: it holds exactly when the netloc is the
    domain between two strings, either of which may be empty. *)
Theorem is_same_domain_substring url parsed domain :
  urlparse url = Some parsed ->
  is_same_domain url domain = true <->
  exists pre post, netloc parsed = pre +:+ domain +:+ post.
Proof.
  intros Hparsed. unfold is_same_domain. rewrite Hparsed.
  apply contains_append.
Qed.

(** ** [extract_urls_from_page] *)

Lemma ensures_extract_urls_from_page :
  ensures (extract_urls_from_page (W := W))
          (fun urls => forall u, u ∈ urls -> clean_link u).
Proof.
  intros s urls s'. unfold extract_urls_from_page, try_except, bind, page.
  destruct (hrefs "a[href]" (world s)) as [[links|e|] w]; simpl;
    intros [= <- _] u Hu; [|by apply not_elem_of_empty in Hu].
  apply elem_of_list_to_set, list_elem_of_filter in Hu as [Hclean Hu].
  apply list_elem_of_filter in Hu as [Hhttp _]. by split.
Qed.

(** X2.  [extract_urls_from_page] does not raise and touches neither the
    records nor the observer's record; every link it returns starts with
    [http] and holds, in lower case, none of the excluded fragments. *)
Theorem extract_urls_from_page_clean (s : @St W) :
  quiet s (extract_urls_from_page s).2 /\
  match (extract_urls_from_page s).1 with
  | Ok urls => forall u, u ∈ urls -> clean_link u
  | Raise _ => False
  | Abort => True
  end.
Proof.
  split; [apply quiet_extract_urls_from_page|].
  pose proof (ensures_extract_urls_from_page s) as Hclean.
  destruct (extract_urls_from_page s) as [[urls|e|] s'] eqn:Heq; simpl.
  - by eapply Hclean.
  - revert Heq. unfold extract_urls_from_page, try_except, bind, page.
    by destruct (hrefs "a[href]" (world s)) as [[links|e'|] w].
  - done.
Qed.

(** ** [crawl_with_retry] *)

(** X3.  [crawl_with_retry] does not raise, whatever the retry counter it
    is called with: what an attempt raises is answered by a retry or by
    [False] (the recursion limit of the interpreter aside). *)
Theorem crawl_with_retry_never_raises url retry_count (s : @St W) e :
  (crawl_with_retry self url retry_count s).1 <> Raise e.
Proof.
  revert url retry_count s.
  apply (crawl_with_retry_elim self
           (fun url retry_count s r => r.1 <> Raise e)); simpl; done.
Qed.

#[export] Instance trace_grows_preorder : PreOrder (@trace_grows W).
Proof.
  split.
  - intros s. unfold trace_grows. reflexivity.
  - intros s1 s2 s3. unfold trace_grows. intros H12 H23. by etrans.
Qed.

Lemma trace_grows_crawl_with_retry_try url :
  respects trace_grows (crawl_with_retry_try self url).
Proof.
  apply (respects_crawl_with_retry_try self trace_grows).
  - intros s s' [_ Ht]. unfold trace_grows. by rewrite Ht.
  - intros u; split; intros s; by apply prefix_app_r.
  - intros key u s _. unfold product_urls_add, trace_grows.
    by destruct (product_urls s !! key).
Qed.

Lemma page_goto_trace url (s s' : @St W) :
  page_goto url s = (Ok tt, s') -> trace s' = trace s ++ [Goto url].
Proof.
  unfold page_goto, bind, page, observe, modify.
  by destruct (goto url (world s)) as [[[]|e|] w]; intros [= <-].
Qed.

Lemma fast_path_false table url (s s' : @St W) :
  fast_path table url s = (Ok false, s') -> s' = s.
Proof.
  induction table as [|[pattern confidence] table IH]; simpl.
  - by intros [= <-].
  - destruct (re_search pattern url); [|done].
    unfold bind.
    destruct (page_goto url s) as [[[]|e|] s1]; try done.
    destruct (netloc_of url s1) as [[key|e|] s2]; try done.
    by destruct (product_urls_add key url s2) as [[[]|e|] s3].
Qed.

Lemma fast_path_true table url (s s' : @St W) :
  fast_path table url s = (Ok true, s') -> trace s' = trace s ++ [Goto url].
Proof.
  induction table as [|[pattern confidence] table IH]; simpl; [done|].
  destruct (re_search pattern url); [|done].
  unfold bind.
  destruct (page_goto url s) as [[[]|e|] s1] eqn:Hgoto; try done.
  apply page_goto_trace in Hgoto.
  unfold netloc_of. destruct (urlparse url) as [parsed|]; simpl; [|done].
  unfold product_urls_add.
  destruct (product_urls s1 !! netloc parsed); [|done].
  by intros [= <-].
Qed.

(** An attempt that returns [True] has navigated to the URL, and has
    recorded nothing else. *)
Lemma crawl_with_retry_try_true url (s s' : @St W) :
  crawl_with_retry_try self url s = (Ok true, s') ->
  trace s' = trace s ++ [Goto url].
Proof.
  unfold crawl_with_retry_try. unfold bind at 1.
  destruct (if contains "amazon" url
            then fast_path (amazon_product_patterns self) url
            else ret false) as [[returned|e|] s0] eqn:Hfast; try done.
  destruct returned.
  { intros [= <-]. destruct (contains "amazon" url); [|done].
    by apply fast_path_true in Hfast. }
  assert (s0 = s) as ->.
  { destruct (contains "amazon" url); [|by injection Hfast].
    by apply fast_path_false in Hfast. }
  unfold bind at 1.
  destruct (page_goto url s) as [[[]|e|] s1] eqn:Hgoto; try done.
  apply page_goto_trace in Hgoto. rewrite <- Hgoto.
  assert (respects quiet
    (let* captcha := is_captcha_present in
     let* handled := if captcha then handle_amazon_captcha else ret true in
     if negb handled then ret false else
     try_except_timeout (page (wait_for_load_state 30000)) (ret tt);;;
     ret true)) as Hrest.
  { steps; auto using quiet_is_captcha_present, quiet_handle_amazon_captcha,
      quiet_page. }
  intros Heq. destruct (Hrest s1) as [_ Ht]. by rewrite Heq in Ht.
Qed.

(** X4.  When [crawl_with_retry] returns [True], the observer's record
    has grown, and a navigation to the URL that succeeded is the last
    thing recorded. *)
Theorem crawl_with_retry_navigated url retry_count (s : @St W) :
  (crawl_with_retry self url retry_count s).1 = Ok true ->
  exists t,
    trace (crawl_with_retry self url retry_count s).2 =
      trace s ++ t ++ [Goto url].
Proof.
  revert url retry_count s.
  apply (crawl_with_retry_elim self
           (fun url retry_count s r =>
              r.1 = Ok true -> exists t, trace r.2 = trace s ++ t ++ [Goto url]));
    simpl; try done.
  - intros url rc s a s' Heq [= ->]. exists [].
    by apply crawl_with_retry_try_true in Heq.
  - intros url rc Hlt s e s' IH _ Heq Htrue.
    destruct (IH Htrue) as [t Ht]. rewrite Ht.
    pose proof (trace_grows_crawl_with_retry_try url s) as [t1 Ht1].
    rewrite Heq in Ht1. simpl in Ht1. rewrite Ht1.
    exists (t1 ++ [Sleep (retry_delay self * (rc + 1))] ++ t).
    by rewrite <- !app_assoc.
Qed.

(** ** The links that the scroll loop gathers *)

#[local] Hint Resolve quiet_page quiet_datetime_now
  quiet_extract_urls_from_page quiet_click_load_more : rely.

(** A step of a [respects] goal that remembers that the links of
    [extract_urls_from_page] are clean. *)
Ltac step_links :=
  lazymatch goal with
  | |- respects _ (bind (zoom extract_urls_from_page) _) =>
      eapply respects_bind_ensures;
      [typeclasses eauto
      |apply ensures_zoom, ensures_extract_urls_from_page
      |
      |intros ? ?]
  | _ => step
  end.

Lemma scroll_step_clean start_time :
  respects (both (keeps frame_clean) (@anything (@St W)))
           (scroll_step self start_time).
Proof.
  unfold scroll_step. repeat step_links.
  - intros Hl u [Hu|Hu]%elem_of_union; [by apply Hl | auto].
  - intros Hl. exact Hl.
Qed.

Lemma scroll_loop_clean fuel start_time :
  respects (both (keeps frame_clean) (@anything (@St W)))
           (scroll_loop self fuel start_time).
Proof.
  induction fuel; simpl; steps. apply scroll_step_clean.
Qed.

Lemma ensures_handle_infinite_scroll fuel :
  ensures (handle_infinite_scroll self fuel)
          (fun urls => forall u, u ∈ urls -> clean_link u).
Proof.
  unfold handle_infinite_scroll.
  eapply ensures_bind; [apply ensures_true|]. intros start_time _.
  eapply ensures_bind.
  - apply (ensures_with_locals frame_clean anything).
    + steps. apply scroll_loop_clean.
    + intros u Hu. by apply not_elem_of_empty in Hu.
  - intros [[] l] Hl. by apply ensures_ret.
Qed.

(** X5.  [handle_infinite_scroll] does not raise and touches neither
    the records nor the observer's record; every link it returns has
    passed the extraction. *)
Theorem handle_infinite_scroll_clean fuel (s : @St W) :
  quiet s (handle_infinite_scroll self fuel s).2 /\
  match (handle_infinite_scroll self fuel s).1 with
  | Ok urls => forall u, u ∈ urls -> clean_link u
  | Raise _ => False
  | Abort => True
  end.
Proof.
  split; [apply quiet_handle_infinite_scroll|].
  pose proof (ensures_handle_infinite_scroll fuel s) as Hclean.
  destruct (handle_infinite_scroll self fuel s) as [[urls|e|] s'] eqn:Heq;
    simpl; [by eapply Hclean| |done].
  revert Heq.
  unfold handle_infinite_scroll, bind, datetime_now, with_locals, try_except.
  destruct (now (world s)) as [t w].
  by destruct (scroll_loop self fuel t _) as [[[]|e'|] [l s1]].
Qed.

(** ** [crawl_page] *)

Lemma ensures_crawl_page fuel domain :
  ensures (crawl_page self fuel domain)
          (fun urls => forall u, u ∈ urls ->
             clean_link u /\ is_same_domain u domain = true).
Proof.
  unfold crawl_page. apply ensures_try_except.
  2: { intros e. apply ensures_ret. intros u Hu.
       by apply not_elem_of_empty in Hu. }
  eapply ensures_bind; [apply ensures_true|]. intros product_match _.
  eapply ensures_bind; [apply ensures_true|]. intros [] _.
  { apply ensures_ret. intros u Hu. by apply not_elem_of_empty in Hu. }
  eapply ensures_bind; [apply ensures_true|]. intros _ _.
  eapply ensures_bind; [apply ensures_extract_urls_from_page|].
  intros all_urls Hall.
  eapply ensures_bind; [apply ensures_true|]. intros page_height _.
  eapply ensures_bind; [apply ensures_true|]. intros viewport_height _.
  eapply (ensures_bind _ _ (fun urls => forall u, u ∈ urls -> clean_link u)).
  - destruct (viewport_height * 2 <? page_height); [|by apply ensures_ret].
    eapply ensures_bind; [apply ensures_handle_infinite_scroll|].
    intros scroll_urls Hscroll. apply ensures_ret.
    intros u [Hu|Hu]%elem_of_union; auto.
  - intros urls Hurls. apply ensures_ret.
    intros u [Hsame Hu]%elem_of_filter. auto.
Qed.

(** X6.  [crawl_page] does not raise.  Every link it returns has passed
    the extraction (it starts with [http] and holds none of the excluded
    fragments) and [is_same_domain]. *)
Theorem crawl_page_links fuel domain (s : @St W) :
  match (crawl_page self fuel domain s).1 with
  | Ok urls =>
      forall u, u ∈ urls -> clean_link u /\ is_same_domain u domain = true
  | Raise _ => False
  | Abort => True
  end.
Proof.
  pose proof (ensures_crawl_page fuel domain s) as Hlinks.
  assert (never_raises (crawl_page self fuel domain)) as Hnever.
  { apply never_raises_try_except. intros e. apply never_raises_ret. }
  specialize (Hnever s).
  destruct (crawl_page self fuel domain s) as [[urls|e|] s'];
    simpl in *; [by eapply Hlinks | by eapply Hnever | done].
Qed.

#[export] Instance same_records_preorder : PreOrder (@same_records W).
Proof.
  split; [by intros s | intros s1 s2 s3; unfold same_records; congruence].
Qed.

(** X7.  [crawl_page] leaves the records as they are, or it has added
    the URL of the page to the set of [domain]: then [is_product_page]
    has returned a match whose confidence is at least 0.7, [domain] is a
    key of the records, and no link is returned. *)
Theorem crawl_page_records fuel domain (s : @St W) :
  product_urls (crawl_page self fuel domain s).2 = product_urls s \/
  exists m old,
    (is_product_page self s).1 = Ok (Some m) /\
    (7 # 10 <= confidence m)%Q /\
    product_urls s !! domain = Some old /\
    product_urls (crawl_page self fuel domain s).2 =
      <[domain := old ∪ {[url m]}]> (product_urls s) /\
    (crawl_page self fuel domain s).1 = Ok ∅.
Proof.
  destruct (crawl_page self fuel domain s) as [r s'] eqn:Hcp. simpl.
  revert Hcp. unfold crawl_page, try_except. unfold bind at 1.
  destruct (is_product_page_observed self (@same_records W)
              ltac:(by intros s1 s2 [Hp _])
              ltac:(by intros u; split; intros s1) s) as [Hsame _].
  destruct (is_product_page self s) as [[product_match|e|] s1] eqn:Hmatch;
    simpl in *; [|intros [= <- <-]; by left..].
  unfold same_records in Hsame.
  assert (forall m : M (@St W) (gset string),
    respects quiet m ->
    match m s1 with
    | (Raise e, s2) => ret ∅ s2
    | r => r
    end = (r, s') -> product_urls s' = product_urls s) as Hquiet.
  { intros m Hm. destruct (Hm s1) as [Hp _].
    destruct (m s1) as [[urls|e|] s2]; simpl in *; intros [= <- <-];
      congruence. }
  assert (forall returned : M (@St W) bool,
    respects quiet returned ->
    respects quiet
      (let* returned := returned in
       if (returned : bool) then ret ∅ else
       handle_dynamic_content self;;;
       let* all_urls := extract_urls_from_page in
       let* page_height := page scrollHeight in
       let* viewport_height := page innerHeight in
       let* all_urls :=
         if viewport_height * 2 <? page_height then
           let* scroll_urls := handle_infinite_scroll self fuel in
           ret (all_urls ∪ scroll_urls)
         else ret all_urls in
       ret (filter (fun url => is_same_domain url domain = true) all_urls)))
    as Hrest.
  { intros returned Hreturned.
    steps; auto using quiet_handle_dynamic_content,
      quiet_handle_infinite_scroll with rely. }
  destruct product_match as [m|].
  2: { intros Hcp. left. eapply Hquiet; [|exact Hcp]. apply Hrest. steps. }
  destruct (Qle_bool (7 # 10) (confidence m)) eqn:Hconf.
  2: { intros Hcp. left. eapply Hquiet; [|exact Hcp]. apply Hrest. steps. }
  apply Qle_bool_iff in Hconf.
  unfold bind at 1. unfold bind at 1. unfold product_urls_add. rewrite Hsame.
  destruct (product_urls s !! domain) as [old|] eqn:Hold; simpl;
    intros [= <- <-]; [|by left].
  right. by exists m, old.
Qed.

(** ** [crawl_domain] *)

#[export] Instance records_grow_preorder : PreOrder (@records_grow W).
Proof.
  split.
  - intros s. split; [done|]. intros key urls Hkey. by exists urls.
  - intros s1 s2 s3 [Hd12 H12] [Hd23 H23]. split; [congruence|].
    intros key urls Hkey.
    destruct (H12 key urls Hkey) as (urls2 & Hkey2 & Hsub2).
    destruct (H23 key urls2 Hkey2) as (urls3 & Hkey3 & Hsub3).
    exists urls3. split; [done|]. by etrans.
Qed.

(** X8.  [crawl_domain] adds no key to the records and removes none, and
    no set of the records loses a URL. *)
Theorem crawl_domain_records_grow fuel domain (s : @St W) :
  dom (product_urls (crawl_domain self fuel domain s).2) =
    dom (product_urls s) /\
  forall key urls,
    product_urls s !! key = Some urls ->
    exists urls',
      product_urls (crawl_domain self fuel domain s).2 !! key = Some urls' /\
      urls ⊆ urls'.
Proof.
  apply (respects_crawl_domain self records_grow).
  - intros s1 s2 [Hp _]. unfold records_grow. rewrite Hp.
    split; [done|]. intros key urls Hkey. by exists urls.
  - intros u; split; intros s1; unfold records_grow; simpl;
      (split; [done|]); intros key urls Hkey; by exists urls.
  - intros key u s1 _. unfold product_urls_add, records_grow.
    destruct (product_urls s1 !! key) as [old|] eqn:Hold; simpl.
    2: { split; [done|]. intros key' urls Hkey. by exists urls. }
    split.
    + rewrite dom_insert_L. apply (elem_of_dom_2 (D := gset string)) in Hold.
      apply set_eq. intros x. rewrite elem_of_union, elem_of_singleton.
      split; [intros [->|]; done | by right].
    + intros key' urls Hkey. destruct (decide (key = key')) as [<-|Hne].
      * rewrite lookup_insert_eq. exists (old ∪ {[u]}). split; [done|].
        rewrite Hold in Hkey. injection Hkey as <-. apply union_subseteq_l.
      * rewrite lookup_insert_ne by done. by exists urls.
  - intros seconds s1. unfold records_grow. simpl. split; [done|].
    intros key urls Hkey. by exists urls.
Qed.

Lemma crawl_domain_body_never_raises fuel domain :
  never_raises (crawl_domain_body self fuel domain).
Proof.
  unfold crawl_domain_body. apply never_raises_try_except.
  intros e. apply never_raises_ret.
Qed.

(** X9.  The start and the end of the browser aside, [crawl_domain] on a
    domain that is a key of the records does not raise: what the crawl
    raises is caught, and the summary finds the set of the domain. *)
Theorem crawl_domain_configured_returns fuel domain (s : @St W) e :
  is_Some (product_urls s !! domain) ->
  (crawl_domain self fuel domain s).1 <> Raise e.
Proof.
  intros Hkey.
  pose proof (Frontier.same_keys_crawl_domain self fuel domain s) as Hdom.
  revert Hdom. unfold crawl_domain, bind, with_locals.
  pose proof (crawl_domain_body_never_raises fuel domain
                ({| visited_urls := ∅; urls_to_visit := ∅ |}, s)) as Hbody.
  destruct (crawl_domain_body self fuel domain _) as [[returned|e'|] [l s1]];
    simpl in *; [|by destruct (Hbody e')|done].
  destruct returned; simpl; [done|].
  intros Hdom.
  assert (is_Some (product_urls s1 !! domain)) as [urls Hurls].
  { apply (elem_of_dom (D := gset string)).
    destruct (product_urls s1 !! domain) eqn:Hs1; simpl in Hdom.
    - rewrite Hdom. by apply (elem_of_dom (D := gset string)).
    - rewrite Hdom. by apply (elem_of_dom (D := gset string)). }
  by rewrite Hurls.
Qed.

(** What follows the insertion into [visited_urls] in a pass of the loop
    adds to [urls_to_visit] only followed links. *)
#[export] Instance grows_followed_preorder domain :
  PreOrder (grows_followed self domain).
Proof.
  split.
  - intros l. split; [done|]. by left.
  - intros l1 l2 l3 [Hv12 Hu12] [Hv23 Hu23]. split; [congruence|].
    intros u Hu. destruct (Hu23 u Hu) as [Hu2|]; [|by right]. by apply Hu12.
Qed.

Lemma crawl_domain_step_tail_followed fuel domain url :
  respects (both (grows_followed self domain) (@anything (@St W)))
    (let* ok := zoom (crawl_with_retry self url 0) in
     if (ok : bool) then
       let* new_urls := zoom (crawl_page self fuel domain) in
       set_locals (fun l =>
         {| visited_urls := visited_urls l;
            urls_to_visit :=
              urls_to_visit l ∪
              filter (fun url =>
                        (url ∉ visited_urls l) ∧ (url ∉ urls_to_visit l) ∧
                        should_crawl_url self url domain = true) new_urls |})
     else ret tt).
Proof.
  apply respects_bind; [typeclasses eauto|steps|]. intros [|]; [|steps].
  eapply respects_bind_ensures;
    [typeclasses eauto | apply ensures_zoom, ensures_crawl_page | steps |].
  intros new_urls Hnew. apply respects_set_locals; try typeclasses eauto.
  intros l. split; [done|]. simpl.
  intros u [Hu|Hu]%elem_of_union; [by left|right].
  apply elem_of_filter in Hu as [(_ & _ & Hcrawl) Hu].
  destruct (Hnew u Hu) as [Hclean Hsame]. by split.
Qed.

Lemma frontier_followed_step fuel domain entry (l : frontier) (s : @St W) :
  frontier_followed self domain entry l ->
  frontier_followed self domain entry
    (crawl_domain_step self fuel domain (l, s)).2.1.
Proof.
  intros Hl. unfold crawl_domain_step. unfold bind at 1. simpl.
  destruct (set_pop (urls_to_visit l)) as [[url rest]|] eqn:Hpop; simpl;
    [|done].
  apply Frontier.set_pop_spec in Hpop as [Hurl ->].
  unfold bind at 1. simpl. case_decide; simpl.
  { intros u [Hu|Hu%elem_of_difference]; apply Hl; tauto. }
  unfold bind at 1. simpl.
  match goal with
  | |- context [(?m (?l1, s)).2.1] =>
      pose proof (crawl_domain_step_tail_followed fuel domain url (l1, s))
        as [[Hsame Hnew] _];
      destruct (m (l1, s)) as [r [l2 s2]]
  end.
  simpl in *. intros u [Hu|Hu].
  - rewrite Hsame in Hu.
    apply elem_of_union in Hu as [Hu| ->%elem_of_singleton]; apply Hl; tauto.
  - destruct (Hnew u Hu) as [Hu'%elem_of_difference|]; [|by right].
    apply Hl. tauto.
Qed.

Lemma frontier_followed_loop fuel domain entry (l : frontier) (s : @St W) :
  frontier_followed self domain entry l ->
  frontier_followed self domain entry
    (crawl_domain_loop self fuel domain (l, s)).2.1.
Proof.
  revert l s. induction fuel as [|fuel IH]; intros l s Hl; simpl.
  all: unfold bind at 1; simpl.
  all: destruct (negb _ && _); simpl; try done.
  unfold bind.
  pose proof (frontier_followed_step fuel domain entry l s Hl) as Hstep.
  destruct (crawl_domain_step self fuel domain (l, s)) as [[[]|e|] [l1 s1]];
    simpl in *; try done.
  by apply IH.
Qed.

(** X10.  A URL that [crawl_domain] visits is the home page, or a link
    that the extraction found on the home page, or a link of a later page
    that has passed the extraction, [is_same_domain] and
    [should_crawl_url]. *)
Theorem crawl_domain_follows fuel domain (s s2 : @St W) homepage_urls u :
  extract_urls_from_page
    (crawl_with_retry self ("https://www." +:+ domain) 0 s).2
    = (Ok homepage_urls, s2) ->
  u ∈ visited_urls
        (crawl_domain_body self fuel domain
           ({| visited_urls := ∅; urls_to_visit := ∅ |}, s)).2.1 ->
  u = "https://www." +:+ domain \/
  (u ∈ homepage_urls /\ clean_link u) \/
  followed_link self domain u.
Proof.
  intros Hextract.
  pose proof (ensures_extract_urls_from_page _ _ _ Hextract) as Hhome.
  unfold crawl_domain_body, try_except. unfold bind at 1, zoom at 1.
  destruct (crawl_with_retry self _ 0 s) as [[[]|e|] s1]; simpl in *;
    try (intros Hu; by apply not_elem_of_empty in Hu).
  unfold bind at 1, zoom at 1. rewrite Hextract. simpl.
  unfold bind. simpl.
  match goal with
  | |- context [crawl_domain_loop self fuel domain (?l1, s2)] =>
      pose proof (frontier_followed_loop fuel domain
                    ({["https://www." +:+ domain]} ∪ homepage_urls) l1 s2)
        as Hloop
  end.
  intros Hu.
  assert (u ∈ {["https://www." +:+ domain]} ∪ homepage_urls \/
          followed_link self domain u) as [Hentry|]; [| |tauto].
  - apply Hloop.
    + simpl. intros x [Hx|Hx]; left.
      * apply elem_of_union in Hx as [Hx|Hx]; [by apply not_elem_of_empty in Hx|].
        apply elem_of_union. by left.
      * apply elem_of_difference in Hx as [Hx _]. apply elem_of_union. by right.
    + left.
      by destruct (crawl_domain_loop self fuel domain _) as [[[]|e|] [l2 s3]].
  - apply elem_of_union in Hentry as [->%elem_of_singleton|Hin]; [tauto|].
    right. left. auto.
Qed.

End Proofs.
End Links.

(* ===================================================================== *)
(** * Proofs: version2.py, the event loop and the results *)
(* ===================================================================== *)

Module Loop.
Import Version2 Rely RelyRules Version2Spec Ensures EnsuresRules LoopSpec.

Lemma elem_of_delete_nth {A} (i : nat) (l : list A) (x : A) :
  x ∈ delete_nth i l -> x ∈ l.
Proof.
  unfold delete_nth. intros [Hx|Hx]%elem_of_app.
  - eapply elem_of_sublist; [exact Hx | apply sublist_take].
  - eapply elem_of_sublist; [exact Hx | apply sublist_drop].
Qed.

Lemma elem_of_insert_inv {A} (i : nat) (x y : A) (l : list A) :
  y ∈ <[i := x]> l -> y = x \/ y ∈ l.
Proof.
  revert i. induction l as [|z l IH]; intros [|i]; simpl; try by right.
  - intros [->|Hy]%elem_of_cons; [by left|]. right. by apply elem_of_cons; right.
  - intros [->|Hy]%elem_of_cons; [right; by apply elem_of_cons; left|].
    destruct (IH i Hy) as [->|]; [by left|]. right. by apply elem_of_cons; right.
Qed.

Section Proofs.
Context `{Lib} {V : Type} `{Web V}.
Variable self : DomainCrawler.

(** ** The two stretches of [crawl_url] *)

(** The first stretch suspends on a URL that was not visited, which it
    adds to the visited set; otherwise it changes nothing. *)
Lemma crawl_url_enter_spec url (a : attrs) :
  match crawl_url_enter self url a with
  | (Ok Suspended, a') =>
      (url ∉ visited_urls a) /\
      should_exclude_url self url = false /\
      Z.of_nat (size (product_urls a)) < max_urls self /\
      (exists depth, get_url_depth url = Some depth /\ depth <= max_depth self) /\
      a' = {| visited_urls := visited_urls a ∪ {[url]};
              product_urls := product_urls a |}
  | (_, a') => a' = a
  end.
Proof.
  unfold crawl_url_enter, bind, get. simpl.
  destruct (bool_decide (url ∈ visited_urls a)) eqn:Hvisited; simpl; [done|].
  apply bool_decide_eq_false in Hvisited.
  destruct (should_exclude_url self url) eqn:Hexcluded; simpl; [done|].
  destruct (max_urls self <=? Z.of_nat (size (product_urls a))) eqn:Hfull;
    simpl; [done|].
  apply Z.leb_gt in Hfull.
  destruct (get_url_depth url) as [depth|] eqn:Hdepth; simpl; [|done].
  destruct (max_depth self <? depth) eqn:Hdeep; simpl; [done|].
  apply Z.ltb_ge in Hdeep. repeat split; try done. by exists depth.
Qed.

#[export] Instance same_visited_preorder : PreOrder same_visited.
Proof.
  split; [by intros a | intros a1 a2 a3; unfold same_visited; congruence].
Qed.

Lemma same_visited_scan_links links gathered :
  respects (both same_visited (@anything V)) (scan_links self links gathered).
Proof.
  revert gathered. induction links as [|link links IH]; intros gathered;
    simpl; steps; done.
Qed.

Lemma same_visited_resume url :
  respects (both same_visited (@anything V)) (crawl_url_resume self url).
Proof.
  unfold crawl_url_resume. steps. apply same_visited_scan_links.
Qed.

(** ** Requests *)

Lemma requested_once_step i (p : @loop V) :
  requested_once p -> requested_once (step self i p).
Proof.
  intros [Hnodup Hsame]. unfold step.
  destruct (tasks p !! i) as [[url hops|url hops]|]; [| |done].
  - pose proof (crawl_url_enter_spec url (crawler p)) as Henter.
    destruct (crawl_url_enter self url (crawler p)) as [[[]|e|] a];
      try (subst a; by split).
    destruct Henter as (Hnew & _ & _ & _ & ->). split; simpl.
    + apply NoDup_app. split; [done|]. split; [|apply NoDup_singleton].
      intros u Hu ->%list_elem_of_singleton. by apply Hnew, Hsame.
    + intros u. rewrite elem_of_app, elem_of_union, list_elem_of_singleton,
        elem_of_singleton. by rewrite Hsame.
  - pose proof (same_visited_resume url (crawler p, outside p))
      as [Hvisited _].
    destruct (crawl_url_resume self url (crawler p, outside p))
      as [[gathered|e|] [a v]]; simpl in *;
      unfold same_visited in Hvisited; split; simpl; try done;
      intros u; by rewrite Hvisited.
Qed.

Lemma requested_once_run schedule (p : @loop V) :
  requested_once p -> requested_once (run self schedule p).
Proof.
  revert p. induction schedule as [|i schedule IH]; intros p Hp; [done|].
  simpl. by apply IH, requested_once_step.
Qed.

(** X11.  At every point of a crawl the URLs passed to [session.get] are
    the visited URLs, and no URL is requested twice: a page that failed to
    load is not asked for again. *)
Theorem requests_once schedule (v : V) :
  NoDup (requested (run self schedule (start self v))) /\
  forall u,
    u ∈ requested (run self schedule (start self v)) <->
    u ∈ visited_urls (crawler (run self schedule (start self v))).
Proof.
  apply requested_once_run. split; [constructor|].
  intros u. simpl. split; intros Hu.
  - by apply elem_of_nil in Hu.
  - by apply not_elem_of_empty in Hu.
Qed.

(** ** Growth *)

#[export] Instance attrs_grow_preorder : PreOrder attrs_grow.
Proof.
  split.
  - by intros a.
  - intros a1 a2 a3 [Hv12 Hp12] [Hv23 Hp23]. split; by etrans.
Qed.

Lemma attrs_grow_scan_links links gathered :
  respects (both attrs_grow (@anything V)) (scan_links self links gathered).
Proof.
  revert gathered. induction links as [|link links IH]; intros gathered;
    simpl; steps; try done.
  split; [done|]. apply union_subseteq_l.
Qed.

Lemma attrs_grow_step i (p : @loop V) :
  attrs_grow (crawler p) (crawler (step self i p)).
Proof.
  unfold step.
  destruct (tasks p !! i) as [[url hops|url hops]|]; [| |done].
  - pose proof (crawl_url_enter_spec url (crawler p)) as Henter.
    destruct (crawl_url_enter self url (crawler p)) as [[[]|e|] a];
      try (subst a; done).
    destruct Henter as (_ & _ & _ & _ & ->). split; simpl; [|done].
    apply union_subseteq_l.
  - assert (respects (both attrs_grow (@anything V))
                     (crawl_url_resume self url)) as Hresume.
    { unfold crawl_url_resume. steps. apply attrs_grow_scan_links. }
    destruct (Hresume (crawler p, outside p)) as [Hgrow _].
    by destruct (crawl_url_resume self url (crawler p, outside p))
      as [[gathered|e|] [a v]].
Qed.

(** X12.  A crawl only adds to its sets: what is visited or recorded at
    one point of a crawl is still so at every later point. *)
Theorem crawl_only_grows schedule more (v : V) :
  visited_urls (crawler (run self schedule (start self v))) ⊆
    visited_urls (crawler (run self (schedule ++ more) (start self v))) /\
  product_urls (crawler (run self schedule (start self v))) ⊆
    product_urls (crawler (run self (schedule ++ more) (start self v))).
Proof.
  unfold run. rewrite foldl_app.
  generalize (foldl (fun p i => step self i p) (start self v) schedule).
  induction more as [|i more IH]; intros p; [done|].
  simpl. destruct (attrs_grow_step i p) as [Hv Hp].
  destruct (IH (step self i p)) as [Hv' Hp']. split; by etrans.
Qed.

(** ** Limits that leave no room *)

Lemma get_url_depth_nonneg url depth :
  get_url_depth url = Some depth -> 0 <= depth.
Proof.
  unfold get_url_depth. destruct (urlparse url); intros [= <-]. lia.
Qed.

Lemma idle_step i (p : @loop V) :
  max_urls self <= 0 \/ max_depth self < 0 ->
  idle p -> idle (step self i p).
Proof.
  intros Hlimit (Hcrawler & Hrequested & Htasks). unfold step.
  destruct (tasks p !! i) as [[url hops|url hops]|] eqn:Hi; [| |done].
  - pose proof (crawl_url_enter_spec url (crawler p)) as Henter.
    destruct (crawl_url_enter self url (crawler p)) as [[[]|e|] a].
    2: { destruct Henter as (_ & _ & Hroom & (depth & Hdepth & Hle) & _).
         apply get_url_depth_nonneg in Hdepth.
         rewrite Hcrawler in Hroom.
         change (product_urls initial_attrs) with (∅ : gset string) in Hroom.
         rewrite size_empty in Hroom. lia. }
    all: subst a; split; [done|]; split; [done|]; simpl.
    all: intros t Ht%elem_of_delete_nth; by apply Htasks.
  - apply list_elem_of_lookup_2, Htasks in Hi as (url' & hops' & [=]).
Qed.

(** X13.  With [max_urls] at most zero, or [max_depth] below zero, a
    crawl does nothing: at every point nothing is visited, recorded or
    requested. *)
Theorem no_room_no_crawl schedule (v : V) :
  max_urls self <= 0 \/ max_depth self < 0 ->
  crawler (run self schedule (start self v)) = initial_attrs /\
  requested (run self schedule (start self v)) = [].
Proof.
  intros Hlimit.
  assert (idle (run self schedule (start self v))) as (? & ? & _); [|done].
  assert (idle (start self v)) as Hstart.
  { split; [done|]. split; [done|]. simpl.
    intros t ->%list_elem_of_singleton. by eexists _, _. }
  revert Hstart. generalize (start self v).
  induction schedule as [|i schedule IH]; intros p Hp; [done|].
  simpl. by apply IH, idle_step.
Qed.

(** ** [get_url_depth] *)

Lemma split_on_trailing (sep : ascii) (piece s : string) :
  filter (fun x => nonempty x = true)
         (split_on sep piece (s +:+ String sep EmptyString)) =
  filter (fun x => nonempty x = true) (split_on sep piece s).
Proof.
  revert piece. induction s as [|c s IH]; intros piece; simpl.
  - rewrite Ascii.eqb_refl. by rewrite !filter_cons, filter_nil.
  - destruct (Ascii.eqb c sep); [|apply IH].
    rewrite !(filter_cons _ piece). by rewrite IH.
Qed.

(** X14.  [get_url_depth] counts the segments of the path that are not
    empty: a slash at the end of the path does not add to the depth. *)
Theorem get_url_depth_trailing_slash url url' parsed parsed' :
  urlparse url = Some parsed ->
  urlparse url' = Some parsed' ->
  path parsed' = path parsed +:+ "/" ->
  get_url_depth url' = get_url_depth url.
Proof.
  intros Hparsed Hparsed' Hpath. unfold get_url_depth.
  rewrite Hparsed, Hparsed', Hpath. unfold split.
  by rewrite split_on_trailing.
Qed.

(** ** The crawl stays on the site *)

(** The calls that the scan of the links creates are for URLs on the
    site. *)
Lemma scan_links_on_site links gathered :
  (forall u, u ∈ gathered -> on_site self u) ->
  ensures (scan_links (V := V) self links gathered)
          (fun r => forall u, u ∈ r -> on_site self u).
Proof.
  revert gathered.
  induction links as [|link links IH]; intros gathered Hgathered [a v] r s';
    simpl.
  { by intros [= <- _]. }
  unfold bind at 1. simpl.
  destruct (max_urls self <=? Z.of_nat (size (product_urls a))); simpl.
  { by intros [= <- _]. }
  unfold bind at 1.
  destruct (urljoin (domain self) link) as [absolute_url|]; simpl; [|done].
  unfold bind at 1.
  destruct (urlparse absolute_url) as [parsed|] eqn:Hparsed; simpl; [|done].
  unfold bind at 1.
  destruct (urlparse (domain self)) as [parsed_domain|] eqn:Hdomain;
    simpl; [|done].
  destruct (String.eqb_spec (netloc parsed) (netloc parsed_domain)) as [Hnet|];
    [|by apply IH].
  destruct (is_product_url self absolute_url) eqn:Hproduct.
  { unfold bind. simpl. by apply IH. }
  destruct (bool_decide (absolute_url ∉ visited_urls a)); apply IH; try done.
  intros u [Hu| ->%list_elem_of_singleton]%elem_of_app; [by apply Hgathered|].
  split; [done|]. by exists parsed, parsed_domain.
Qed.

Lemma crawl_url_resume_on_site url :
  ensures (crawl_url_resume (V := V) self url)
          (fun r => forall u, u ∈ r -> on_site self u).
Proof.
  assert (forall u : string, u ∈ @nil string -> on_site self u) as Hnone.
  { intros u Hu. by apply elem_of_nil in Hu. }
  unfold crawl_url_resume. apply ensures_try_except.
  2: { intros e. by apply ensures_ret. }
  eapply ensures_bind; [apply ensures_true|]. intros [status content_type] _.
  destruct (status =? 200); [|by apply ensures_ret].
  eapply ensures_bind; [apply ensures_true|]. intros text _.
  eapply ensures_bind; [apply ensures_true|]. intros links _.
  by apply scan_links_on_site.
Qed.

Lemma calls_on_site_step i (p : @loop V) :
  calls_on_site self p -> calls_on_site self (step self i p).
Proof.
  intros [Hvisited Htasks]. unfold step.
  destruct (tasks p !! i) as [[url hops|url hops]|] eqn:Hi; [| |done].
  - pose proof (Htasks _ (list_elem_of_lookup_2 _ _ _ Hi)) as Hurl.
    pose proof (crawl_url_enter_spec url (crawler p)) as Henter.
    destruct (crawl_url_enter self url (crawler p)) as [[[]|e|] a].
    2: { destruct Henter as (_ & _ & _ & _ & ->). split; simpl.
         - intros u [Hu| ->%elem_of_singleton]%elem_of_union; auto.
         - intros t [->|Ht]%elem_of_insert_inv; auto. }
    all: subst a; split; [done|]; simpl.
    all: intros t Ht%elem_of_delete_nth; by apply Htasks.
  - pose proof (same_visited_resume url (crawler p, outside p))
      as [Hsame _].
    pose proof (crawl_url_resume_on_site url (crawler p, outside p))
      as Hgathered.
    destruct (crawl_url_resume self url (crawler p, outside p))
      as [[gathered|e|] [a v]]; simpl in *; unfold same_visited in Hsame.
    all: split; simpl; [intros u; rewrite Hsame; by apply Hvisited|].
    2,3: intros t Ht%elem_of_delete_nth; by apply Htasks.
    intros t [Ht%elem_of_delete_nth|Ht]%elem_of_app; [by apply Htasks|].
    apply list_elem_of_fmap in Ht as (u & -> & Hu). right. simpl.
    by eapply Hgathered.
Qed.

(** X15.  The crawl stays on the site and fetches no product page: every
    URL it visits is the entry point, or a URL on the netloc of the entry
    point that matches no product pattern. *)
Theorem visited_on_site schedule (v : V) u :
  u ∈ visited_urls (crawler (run self schedule (start self v))) ->
  u = domain self \/
  (is_product_url self u = false /\
   exists parsed parsed_domain,
     urlparse u = Some parsed /\
     urlparse (domain self) = Some parsed_domain /\
     netloc parsed = netloc parsed_domain).
Proof.
  assert (calls_on_site self (run self schedule (start self v)))
    as [Hvisited _]; [|apply Hvisited].
  assert (calls_on_site self (start self v)) as Hstart.
  { split; simpl.
    - intros u' Hu. by apply not_elem_of_empty in Hu.
    - intros t ->%list_elem_of_singleton. by left. }
  revert Hstart. generalize (start self v).
  induction schedule as [|i schedule IH]; intros p Hp; [done|].
  simpl. by apply IH, calls_on_site_step.
Qed.

(** ** [handle_dynamic_content] *)

Lemma add_links_nonempty (hrefs : list (option string)) (links : gset string) :
  (forall l, l ∈ links -> l <> EmptyString) ->
  forall l, l ∈ add_links hrefs links -> l <> EmptyString.
Proof.
  revert links.
  induction hrefs as [|[link|] hrefs IH]; intros links Hlinks; simpl;
    [done| |by apply IH].
  apply IH. destruct link as [|c link]; simpl; [done|].
  intros l [Hl| ->%elem_of_singleton]%elem_of_union; [by apply Hlinks|done].
Qed.

Lemma scroll_links_nonempty remaining last_height (links : gset string) :
  (forall l, l ∈ links -> l <> EmptyString) ->
  ensures (scroll_links (V := V) remaining last_height links)
          (fun r => forall l, l ∈ r -> l <> EmptyString).
Proof.
  revert last_height links.
  induction remaining as [|remaining IH]; intros last_height links Hlinks;
    simpl; [by apply ensures_ret|].
  eapply ensures_bind; [apply ensures_true|]. intros _ _.
  eapply ensures_bind; [apply ensures_true|]. intros _ _.
  eapply ensures_bind; [apply ensures_true|]. intros new_height _.
  eapply ensures_bind; [apply ensures_true|]. intros hrefs _.
  destruct (new_height =? last_height);
    [apply ensures_ret | apply IH]; by apply add_links_nonempty.
Qed.

(** X16.  [handle_dynamic_content] does not raise.  The links it returns
    are distinct, and none of them is the empty string. *)
Theorem handle_dynamic_content_links url (v : V) :
  match (handle_dynamic_content url v).1 with
  | Ok links => NoDup links /\ forall l, l ∈ links -> l <> EmptyString
  | Raise _ => False
  | Abort => True
  end.
Proof.
  assert (ensures (handle_dynamic_content (V := V) url)
            (fun links => NoDup links /\
                          forall l, l ∈ links -> l <> EmptyString)) as Hlinks.
  { unfold handle_dynamic_content. apply ensures_try_except.
    2: { intros e. apply ensures_ret. split; [constructor|].
         intros l Hl. by apply elem_of_nil in Hl. }
    eapply ensures_bind; [apply ensures_true|]. intros _ _.
    eapply ensures_bind; [apply ensures_true|]. intros _ _.
    eapply ensures_bind; [apply ensures_true|]. intros last_height _.
    eapply ensures_bind.
    - apply (scroll_links_nonempty 5 last_height ∅).
      intros l Hl. by apply not_elem_of_empty in Hl.
    - intros links Hnonempty. apply ensures_ret.
      split; [apply NoDup_elements|].
      intros l Hl%elem_of_elements. by apply Hnonempty. }
  assert (never_raises (handle_dynamic_content (V := V) url)) as Hnever.
  { apply never_raises_try_except. intros e. apply never_raises_ret. }
  specialize (Hlinks v). specialize (Hnever v).
  destruct (handle_dynamic_content url v) as [[links|e|] v'];
    simpl in *; [by eapply Hlinks | by eapply Hnever | done].
Qed.

End Proofs.

(** ** [ParallelCrawler] *)

Lemma results_set_fresh domain urls (results : list (string * list string)) :
  domain ∉ results.*1 ->
  results_set domain urls results = results ++ [(domain, urls)].
Proof.
  intros Hfresh. unfold results_set.
  destruct (existsb _ results) eqn:Hexists; [|done].
  apply existsb_exists in Hexists as ([d old] & Hin & Heq).
  apply String.eqb_eq in Heq as ->. destruct Hfresh.
  apply list_elem_of_fmap. exists (domain, old). split; [done|].
  by apply list_elem_of_In.
Qed.

Lemma foldl_results_set_fresh (domains : list string)
    (gathered : list (list string)) (results : list (string * list string)) :
  NoDup domains ->
  (forall d, d ∈ domains -> d ∉ results.*1) ->
  foldl (fun results '(domain, urls) => results_set domain urls results)
        results (zip domains gathered) =
  results ++ zip domains gathered.
Proof.
  revert gathered results.
  induction domains as [|d domains IH]; intros gathered results Hnodup Hfresh.
  { simpl. by rewrite app_nil_r. }
  destruct gathered as [|urls gathered]; simpl; [by rewrite app_nil_r|].
  apply NoDup_cons in Hnodup as [Hd Hnodup].
  rewrite results_set_fresh by (apply Hfresh; by left).
  rewrite IH; [by rewrite <- app_assoc|done|].
  intros d' Hd'. rewrite fmap_app. simpl.
  intros [Hin| ->%list_elem_of_singleton]%elem_of_app; [|done].
  revert Hin. apply Hfresh. by right.
Qed.

Section Parallel.
Context `{Lib} {V : Type} `{Web V}.
Variable self : ParallelCrawler.

(** X17.  When the domains are distinct and none of them has a result
    yet, [store_results] appends to the results each domain with the list
    gathered for it, in the order of the domains; domains without a list
    and lists without a domain are left out. *)
Theorem store_results_zip gathered (s : @PSt V) :
  NoDup (domains self) ->
  (forall d, d ∈ domains self -> d ∉ (results s).*1) ->
  store_results self gathered s =
  (Ok tt, {| results := results s ++ zip (domains self) gathered;
             world := world s;
             trace := trace s |}).
Proof.
  intros Hnodup Hfresh. unfold store_results, modify.
  by rewrite foldl_results_set_fresh.
Qed.

#[export] Instance nothing_stored_preorder : PreOrder (@nothing_stored V).
Proof.
  split; [by intros s|].
  intros s1 s2 s3 [Hr12 Ht12] [Hr23 Ht23]. split; congruence.
Qed.

Lemma nothing_stored_outer {A} (op : M V A) : respects nothing_stored (outer op).
Proof. intros s. unfold outer. by destruct (op (world s)). Qed.

Lemma nothing_stored_construct_crawlers domains :
  respects nothing_stored (construct_crawlers self domains).
Proof.
  induction domains as [|domain domains IH]; simpl; steps.
  apply nothing_stored_outer.
Qed.

(** X18.  When the construction of a crawler raises (its domain does not
    parse, or the browser does not start), [crawl_all_domains] raises the
    same exception: it stores no result and writes no file. *)
Theorem construct_failure_writes_nothing (s s1 : @PSt V) e :
  construct_crawlers self (domains self) s = (Raise e, s1) ->
  crawl_all_domains self s = (Raise e, s1) /\
  results s1 = results s /\ trace s1 = trace s.
Proof.
  intros Hconstruct. split.
  - unfold crawl_all_domains. unfold bind at 1. by rewrite Hconstruct.
  - pose proof (nothing_stored_construct_crawlers (domains self) s) as Hsame.
    by rewrite Hconstruct in Hsame.
Qed.

End Parallel.
End Loop.

(* ===================================================================== *)
(** * The properties on the sites *)
(* ===================================================================== *)

Module Instances.
Import Rely AdvanceSpec Version2Spec Scenarios LinkSpec LoopSpec
  MoreScenarios.

Ltac by_computation :=
  lazymatch goal with
  | |- ?P => apply (bool_decide_unpack P); vm_compute; exact I
  end.

(** The netloc of the lookalike is not the domain of the shop, and
    [is_same_domain] accepts it. *)
Lemma is_same_domain_substring_witness :
  urlparse lookalike_url
    = Some {| netloc := "shop.example.evil.test"; path := "/x" |} /\
  Advance.is_same_domain lookalike_url "shop.example" = true.
Proof.
  assert (urlparse lookalike_url
            = Some {| netloc := "shop.example.evil.test"; path := "/x" |})
    as Hparsed by (vm_compute; reflexivity).
  split; [exact Hparsed|].
  apply (Links.is_same_domain_substring lookalike_url _ "shop.example" Hparsed).
  by exists EmptyString, ".evil.test".
Defined.

(** On the site whose first two navigations fail, the fetch of the
    catalog ends with the navigation that succeeded. *)
Lemma crawl_with_retry_navigated_witness :
  (Advance.crawl_with_retry shop catalog_url 0 flaky_start).1 = Ok true /\
  exists t,
    Advance.trace (Advance.crawl_with_retry shop catalog_url 0 flaky_start).2 =
      Advance.trace flaky_start ++ t ++ [Advance.Goto catalog_url].
Proof.
  assert ((Advance.crawl_with_retry shop catalog_url 0 flaky_start).1 = Ok true)
    as Htrue by (vm_compute; reflexivity).
  split; [exact Htrue|].
  exact (Links.crawl_with_retry_navigated shop catalog_url 0 flaky_start Htrue).
Defined.

(** The crawl of the shop, whose domain is configured, does not raise. *)
Lemma crawl_domain_configured_returns_witness :
  is_Some (Advance.product_urls shop_start !! "shop.example") /\
  forall e, (Advance.crawl_domain shop 10 "shop.example" shop_start).1 <> Raise e.
Proof.
  assert (is_Some (Advance.product_urls shop_start !! "shop.example"))
    as Hkey by (vm_compute; by eexists).
  split; [exact Hkey|]. intros e.
  exact (Links.crawl_domain_configured_returns shop 10 "shop.example"
           shop_start e Hkey).
Defined.

(** The about-us page of the shop is visited as a link of the home
    page; it has passed the extraction, not [should_crawl_url]. *)
Lemma crawl_domain_follows_witness :
  about_us ∈ Advance.visited_urls
    (Advance.crawl_domain_body shop 10 "shop.example"
       ({| Advance.visited_urls := ∅; Advance.urls_to_visit := ∅ |},
        shop_start)).2.1 /\
  (about_us = "https://www." +:+ "shop.example" \/
   (about_us ∈ shop_homepage_urls /\ clean_link about_us) \/
   followed_link shop "shop.example" about_us).
Proof.
  assert (about_us ∈ Advance.visited_urls
    (Advance.crawl_domain_body shop 10 "shop.example"
       ({| Advance.visited_urls := ∅; Advance.urls_to_visit := ∅ |},
        shop_start)).2.1) as Hvisited by by_computation.
  assert (Advance.extract_urls_from_page
            (Advance.crawl_with_retry shop ("https://www." +:+ "shop.example")
               0 shop_start).2
          = (Ok shop_homepage_urls,
             (Advance.extract_urls_from_page
                (Advance.crawl_with_retry shop
                   ("https://www." +:+ "shop.example") 0 shop_start).2).2))
    as Hextract by (vm_compute; reflexivity).
  split; [exact Hvisited|].
  exact (Links.crawl_domain_follows shop 10 "shop.example" shop_start _
           shop_homepage_urls about_us Hextract Hvisited).
Defined.

(** With no room for a product the crawl of the shop does nothing. *)
Lemma no_room_no_crawl_witness :
  (Version2.max_urls (shop_crawler 0 1) <= 0 \/
   Version2.max_depth (shop_crawler 0 1) < 0) /\
  Version2.crawler
    (Version2.run (shop_crawler 0 1) (oldest_first 3)
       (Version2.start (shop_crawler 0 1) (PyModel.static_web shop_pages)))
    = Version2.initial_attrs /\
  Version2.requested
    (Version2.run (shop_crawler 0 1) (oldest_first 3)
       (Version2.start (shop_crawler 0 1) (PyModel.static_web shop_pages)))
    = [].
Proof.
  assert (Version2.max_urls (shop_crawler 0 1) <= 0 \/
          Version2.max_depth (shop_crawler 0 1) < 0) as Hlimit.
  { left. vm_compute. intros [=]. }
  split; [exact Hlimit|].
  exact (Loop.no_room_no_crawl (shop_crawler 0 1) (oldest_first 3)
           (PyModel.static_web shop_pages) Hlimit).
Defined.

(** [/a/] is as deep as [/a]. *)
Lemma get_url_depth_trailing_slash_witness :
  Version2.get_url_depth "https://shop.example/a/" =
  Version2.get_url_depth "https://shop.example/a".
Proof.
  apply (Loop.get_url_depth_trailing_slash
           "https://shop.example/a" "https://shop.example/a/"
           {| netloc := "shop.example"; path := "/a" |}
           {| netloc := "shop.example"; path := "/a/" |});
    vm_compute; reflexivity.
Defined.

(** The page [/a] of the shop is visited: it is on the netloc of the
    entry point and matches no product pattern. *)
Lemma visited_on_site_witness :
  "https://shop.example/a"
    ∈ Version2.visited_urls
        (Version2.crawler
           (Version2.run (shop_crawler 10 1) (oldest_first 12)
              (Version2.start (shop_crawler 10 1)
                 (PyModel.static_web shop_pages)))) /\
  ("https://shop.example/a" = Version2.domain (shop_crawler 10 1) \/
   (Version2.is_product_url (shop_crawler 10 1) "https://shop.example/a"
      = false /\
    exists parsed parsed_domain,
      urlparse "https://shop.example/a" = Some parsed /\
      urlparse (Version2.domain (shop_crawler 10 1)) = Some parsed_domain /\
      netloc parsed = netloc parsed_domain)).
Proof.
  assert ("https://shop.example/a"
            ∈ Version2.visited_urls
                (Version2.crawler
                   (Version2.run (shop_crawler 10 1) (oldest_first 12)
                      (Version2.start (shop_crawler 10 1)
                         (PyModel.static_web shop_pages))))) as Hvisited
    by by_computation.
  split; [exact Hvisited|].
  exact (Loop.visited_on_site (shop_crawler 10 1) (oldest_first 12)
           (PyModel.static_web shop_pages) "https://shop.example/a" Hvisited).
Defined.

(** The result gathered for the shop is stored under its domain. *)
Lemma store_results_zip_witness :
  Version2.store_results parallel [["https://shop.example/p/1"]]
    (parallel_start (Ok [["https://shop.example/p/1"]])) =
  (Ok tt,
   {| Version2.results :=
        [] ++ zip (Version2.domains parallel) [["https://shop.example/p/1"]];
      Version2.world :=
        Version2.world (parallel_start (Ok [["https://shop.example/p/1"]]));
      Version2.trace :=
        Version2.trace (parallel_start (Ok [["https://shop.example/p/1"]])) |}).
Proof.
  apply (Loop.store_results_zip parallel [["https://shop.example/p/1"]]
           (parallel_start (Ok [["https://shop.example/p/1"]]))).
  - by_computation.
  - intros d _ Hd. by apply elem_of_nil in Hd.
Defined.

(** The second domain does not parse: the crawl raises [ValueError]
    after the browser of the first crawler has started, and writes no
    file. *)
Lemma construct_failure_writes_nothing_witness :
  Version2.crawl_all_domains broken_parallel (parallel_start (Ok [])) =
    (Raise ValueError, parallel_start (Ok [])) /\
  Version2.results (parallel_start (Ok [])) = [] /\
  Version2.trace (parallel_start (Ok [])) = [].
Proof.
  assert (Version2.construct_crawlers broken_parallel
            (Version2.domains broken_parallel) (parallel_start (Ok []))
          = (Raise ValueError, parallel_start (Ok []))) as Hconstruct
    by (vm_compute; reflexivity).
  destruct (Loop.construct_failure_writes_nothing broken_parallel
              (parallel_start (Ok [])) (parallel_start (Ok [])) ValueError
              Hconstruct) as (Hraises & Hresults & Htrace).
  split; [exact Hraises|]. split; [exact Hresults | exact Htrace].
Defined.

End Instances.
